(** * The innings reducer of the voice-controlled cricket scorer

    A shallow embedding of the scoring state machine of the [App] component
    ([recordDelivery], [clearLastDelivery], [handleGeminiFunctionCall],
    [handleMaxWicketsChange], [resetInnings], [isGameStarted]) together with
    the data model of the [types] module, and the properties of the
    specification that are stated about it.

    The state updaters passed to [setScore] are pure functions of the
    current score; each is embedded as a function on [ScoreState].  The
    numbers the reducer handles are integers (the tool declarations type
    every numeric argument as [Type.INTEGER]); they are modelled as [Z].
    Arrays are lists; the indexed read and write of the edit path are
    stdpp's [!!] and [<[_:=_]>], which the source only uses in range, and
    [pop] is [last] with [removelast]. *)

From Stdlib Require Import ZArith String DecimalString Bool Lia.
From stdpp Require Import base list.

Local Open Scope Z_scope.

(** ** Data model ([types.ts]) *)

(** ['wide' | 'no_ball'] *)
Inductive ExtraType : Type :=
  | wide
  | no_ball.

Module BallEvent.
Record t : Type := mk {
  display : string;
  runs : Z;
  isWicket : bool;
  isLegalDelivery : bool;
  extraType : option ExtraType
}.
End BallEvent.

Module ScoreState.
Record t : Type := mk {
  runs : Z;
  wickets : Z;
  overs : Z;
  balls : Z;
  recentThisOver : list BallEvent.t;
  inningsOver : bool;
  targetOvers : Z;
  maxWickets : Z
}.
End ScoreState.

Abbreviation BallEvent := BallEvent.t.
Abbreviation ScoreState := ScoreState.t.

Definition INITIAL_SCORE_STATE : ScoreState :=
  {| ScoreState.runs := 0;
     ScoreState.wickets := 0;
     ScoreState.overs := 0;
     ScoreState.balls := 0;
     ScoreState.recentThisOver := [];
     ScoreState.inningsOver := false;
     ScoreState.targetOvers := 20;
     ScoreState.maxWickets := 10 |}.

(** ** Function calls issued by the speech service

    [recordDelivery] receives the name of the called function and its
    arguments.  The three declared delivery functions carry the arguments of
    their declarations in [geminiService.ts]; [runsOnDismissal] is optional
    for the code ([args.runsOnDismissal || 0]).  [unknownCall] stands for any
    other name: the [switch] of [recordDelivery] has no [default] case. *)
Inductive Delivery : Type :=
  | addRuns (runs : Z)
  | declareWicket (runsOnDismissal : option Z)
  | declareExtra (type : ExtraType) (runs : Z)
  | unknownCall.

(** A function call as [handleGeminiFunctionCall] sees it: ['clearLastBall'],
    or anything else with its optional [args.ballNumber]. *)
Inductive FunctionCall : Type :=
  | clearLastBall
  | deliveryCall (d : Delivery) (ballNumber : option Z).

(** ** JavaScript primitives used by the reducer *)

(** [Number.prototype.toString] on an integer: decimal digits, with a
    leading minus sign for a negative number. *)
Definition toString (n : Z) : string := NilZero.string_of_int (Z.to_int n).

(** [b => b.isLegalDelivery] counted: [arr.filter(b => b.isLegalDelivery).length] *)
Definition legalCount (l : list BallEvent) : Z :=
  Z.of_nat (length (List.filter BallEvent.isLegalDelivery l)).

(** The guard of the edit path, evaluated at lines 63 and 111 on the same
    array: [ballNumberToEdit && ballNumberToEdit > 0 &&
    ballNumberToEdit <= newRecentThisOver.length].  [undefined] and [0] are
    falsy. *)
Definition isEdit (ballNumberToEdit : option Z) (newRecentThisOver : list BallEvent) : bool :=
  match ballNumberToEdit with
  | None => false
  | Some n =>
      negb (n =? 0) && (0 <? n) && (n <=? Z.of_nat (length newRecentThisOver))
  end.

(** [ballNumberToEdit - 1] as an array index.  It is only read under
    [isEdit], where it lies within the array. *)
Definition originalBallIndex (ballNumberToEdit : option Z) : nat :=
  match ballNumberToEdit with
  | None => 0%nat
  | Some n => Z.to_nat (n - 1)
  end.

(** ** [recordDelivery] *)

(** Step 2: the new [BallEvent] built from the function call. *)
Definition newBallEvent (d : Delivery) : BallEvent :=
  match d with
  | addRuns runs =>
      {| BallEvent.display := toString runs;
         BallEvent.runs := runs;
         BallEvent.isWicket := false;
         BallEvent.isLegalDelivery := true;
         BallEvent.extraType := None |}
  | declareWicket arg =>
      let runsOnDismissal :=
        match arg with
        | Some v => if v =? 0 then 0 else v
        | None => 0
        end in
      {| BallEvent.display :=
           String.append "W"
             (if 0 <? runsOnDismissal
              then String.append "+" (toString runsOnDismissal) else "");
         BallEvent.runs := runsOnDismissal;
         BallEvent.isWicket := true;
         BallEvent.isLegalDelivery := true;
         BallEvent.extraType := None |}
  | declareExtra extraType extraRuns =>
      {| BallEvent.display :=
           String.append
             (if 0 <? extraRuns then toString extraRuns else "")
             (match extraType with wide => "wd" | no_ball => "nb" end);
         BallEvent.runs := 1 + extraRuns;
         BallEvent.isWicket := false;
         BallEvent.isLegalDelivery := false;
         BallEvent.extraType := Some extraType |}
  | unknownCall =>
      {| BallEvent.display := "";
         BallEvent.runs := 0;
         BallEvent.isWicket := false;
         BallEvent.isLegalDelivery := false;
         BallEvent.extraType := None |}
  end.

(** Step 4: the array after the edit or the append.  An edit overwrites the
    addressed slot; otherwise the event is pushed while fewer than six legal
    deliveries are recorded, and left out when six already are. *)
Definition updateRecentThisOver (ballNumberToEdit : option Z)
    (newBall : BallEvent) (newRecentThisOver : list BallEvent) : list BallEvent :=
  if isEdit ballNumberToEdit newRecentThisOver then
    <[originalBallIndex ballNumberToEdit := newBall]> newRecentThisOver
  else if legalCount newRecentThisOver <? 6 then
    newRecentThisOver ++ [newBall]
  else
    newRecentThisOver.

(** The updater of [recordDelivery].  The lookup of Step 1 is guarded by
    [isEdit], so its [None] branch is never taken. *)
Definition recordDelivery (d : Delivery) (ballNumberToEdit : option Z)
    (currentScore : ScoreState) : ScoreState :=
  if ScoreState.inningsOver currentScore then currentScore
  else
    let newRecentThisOver := ScoreState.recentThisOver currentScore in
    (* Step 1: if it is an edit, revert the original ball's score. *)
    let '(runs1, wickets1) :=
      if isEdit ballNumberToEdit newRecentThisOver then
        match newRecentThisOver !! originalBallIndex ballNumberToEdit with
        | Some originalBall =>
            (ScoreState.runs currentScore - BallEvent.runs originalBall,
             if BallEvent.isWicket originalBall
             then ScoreState.wickets currentScore - 1
             else ScoreState.wickets currentScore)
        | None => (ScoreState.runs currentScore, ScoreState.wickets currentScore)
        end
      else (ScoreState.runs currentScore, ScoreState.wickets currentScore) in
    (* Step 2: create the new BallEvent. *)
    let newBall := newBallEvent d in
    (* Step 3: apply the new ball's score. *)
    let runs2 := runs1 + BallEvent.runs newBall in
    let wickets2 := if BallEvent.isWicket newBall then wickets1 + 1 else wickets1 in
    (* Step 4: update the recentThisOver array. *)
    let recent4 := updateRecentThisOver ballNumberToEdit newBall newRecentThisOver in
    (* Step 5: recalculate overs and balls. *)
    let legalDeliveries := legalCount recent4 in
    let '(overs5, balls5, recent5) :=
      if 6 <=? legalDeliveries
      then (ScoreState.overs currentScore + 1, 0, [])
      else (ScoreState.overs currentScore, legalDeliveries, recent4) in
    (* Step 6: check for innings end. *)
    let inningsOver6 :=
      if (ScoreState.maxWickets currentScore <=? wickets2)
         || (ScoreState.targetOvers currentScore <=? overs5)
      then true
      else ScoreState.inningsOver currentScore in
    {| ScoreState.runs := runs2;
       ScoreState.wickets := wickets2;
       ScoreState.overs := overs5;
       ScoreState.balls := balls5;
       ScoreState.recentThisOver := recent5;
       ScoreState.inningsOver := inningsOver6;
       ScoreState.targetOvers := ScoreState.targetOvers currentScore;
       ScoreState.maxWickets := ScoreState.maxWickets currentScore |}.

(** ** [clearLastDelivery]

    [pop] is applied to a non-empty array, so [last] finds the ball. *)

Definition clearLastDelivery (currentScore : ScoreState) : ScoreState :=
  if ScoreState.inningsOver currentScore
     || (length (ScoreState.recentThisOver currentScore) =? 0)%nat
  then currentScore
  else
    match last (ScoreState.recentThisOver currentScore) with
    | None => currentScore
    | Some lastBall =>
        let newRecentThisOver := removelast (ScoreState.recentThisOver currentScore) in
        {| ScoreState.runs := ScoreState.runs currentScore - BallEvent.runs lastBall;
           ScoreState.wickets :=
             if BallEvent.isWicket lastBall
             then ScoreState.wickets currentScore - 1
             else ScoreState.wickets currentScore;
           ScoreState.overs := ScoreState.overs currentScore;
           ScoreState.balls := legalCount newRecentThisOver;
           ScoreState.recentThisOver := newRecentThisOver;
           ScoreState.inningsOver := ScoreState.inningsOver currentScore;
           ScoreState.targetOvers := ScoreState.targetOvers currentScore;
           ScoreState.maxWickets := ScoreState.maxWickets currentScore |}
    end.

(** ** [handleGeminiFunctionCall] and runs of calls *)

Definition handleGeminiFunctionCall (fc : FunctionCall) (score : ScoreState) : ScoreState :=
  match fc with
  | clearLastBall => clearLastDelivery score
  | deliveryCall d ballNumber => recordDelivery d ballNumber score
  end.

(** The calls of a session, applied one at a time in arrival order. *)
Definition runCalls (calls : list FunctionCall) (score : ScoreState) : ScoreState :=
  fold_left (fun s fc => handleGeminiFunctionCall fc s) calls score.

(** ** The wickets-limit input

    [handleMaxWicketsChange] receives the result of
    [parseInt(e.target.value, 10)]: [None] is [NaN]. *)
Definition handleMaxWicketsChange (newMaxWickets : option Z)
    (prevScore : ScoreState) : ScoreState :=
  match newMaxWickets with
  | Some n =>
      if 0 <? n then
        {| ScoreState.runs := ScoreState.runs prevScore;
           ScoreState.wickets := ScoreState.wickets prevScore;
           ScoreState.overs := ScoreState.overs prevScore;
           ScoreState.balls := ScoreState.balls prevScore;
           ScoreState.recentThisOver := ScoreState.recentThisOver prevScore;
           ScoreState.inningsOver := ScoreState.inningsOver prevScore;
           ScoreState.targetOvers := ScoreState.targetOvers prevScore;
           ScoreState.maxWickets := n |}
      else prevScore
  | None => prevScore
  end.

(** [score.runs > 0 || score.wickets > 0 || score.overs > 0 || score.balls > 0] *)
Definition isGameStarted (score : ScoreState) : bool :=
  (0 <? ScoreState.runs score) || (0 <? ScoreState.wickets score)
  || (0 <? ScoreState.overs score) || (0 <? ScoreState.balls score).

(** The [max-wickets] input element of the rendered page, the only place
    that calls the handler:
    [<input id="max-wickets" ... onChange={handleMaxWicketsChange}
    disabled={isGameStarted} ... />].  A disabled input delivers no change
    event, so the handler runs only while [isGameStarted] is false; the
    handler itself does not look at the counters. *)
Definition maxWicketsInput (newMaxWickets : option Z) (score : ScoreState) : ScoreState :=
  if isGameStarted score then score
  else handleMaxWicketsChange newMaxWickets score.

(** [resetInnings]: the initial state, keeping the configured [maxWickets]. *)
Definition resetInnings (score : ScoreState) : ScoreState :=
  {| ScoreState.runs := ScoreState.runs INITIAL_SCORE_STATE;
     ScoreState.wickets := ScoreState.wickets INITIAL_SCORE_STATE;
     ScoreState.overs := ScoreState.overs INITIAL_SCORE_STATE;
     ScoreState.balls := ScoreState.balls INITIAL_SCORE_STATE;
     ScoreState.recentThisOver := ScoreState.recentThisOver INITIAL_SCORE_STATE;
     ScoreState.inningsOver := ScoreState.inningsOver INITIAL_SCORE_STATE;
     ScoreState.targetOvers := ScoreState.targetOvers INITIAL_SCORE_STATE;
     ScoreState.maxWickets := ScoreState.maxWickets score |}.

(** ** Auxiliary notions used in the statements *)

(** [b ? 1 : 0] *)
Definition indicator (b : bool) : Z := if b then 1 else 0.

(** The counters the data model requires to be non-negative. *)
Definition countersNonNegative (s : ScoreState) : Prop :=
  0 <= ScoreState.runs s /\ 0 <= ScoreState.wickets s
  /\ 0 <= ScoreState.overs s /\ 0 <= ScoreState.balls s.

(** The ball count agrees with the legal deliveries recorded in the current
    over, of which there are at most five. *)
Definition overConsistent (s : ScoreState) : Prop :=
  ScoreState.balls s = legalCount (ScoreState.recentThisOver s)
  /\ legalCount (ScoreState.recentThisOver s) <= 5.

(** A [declareExtra] call without ball number, and the event it records. *)
Definition extraCall (x : ExtraType * Z) : FunctionCall :=
  deliveryCall (declareExtra x.1 x.2) None.

Definition extraBall (x : ExtraType * Z) : BallEvent :=
  newBallEvent (declareExtra x.1 x.2).

(** A state with six legal deliveries pending.  No run of calls from the
    initial state produces it: an over is cleared as soon as it holds six. *)
Definition sixPending : ScoreState :=
  {| ScoreState.runs := 6;
     ScoreState.wickets := 0;
     ScoreState.overs := 0;
     ScoreState.balls := 6;
     ScoreState.recentThisOver := replicate 6 (newBallEvent (addRuns 1));
     ScoreState.inningsOver := false;
     ScoreState.targetOvers := 20;
     ScoreState.maxWickets := 10 |}.

(** Five singles followed by a wide: the sixth recorded ball is an extra. *)
Definition fiveAndWide : ScoreState :=
  runCalls (replicate 5 (deliveryCall (addRuns 1) None)
            ++ [deliveryCall (declareExtra wide 0) None]) INITIAL_SCORE_STATE.

(** Nine wickets down, three balls into the second over. *)
Definition nineWickets : ScoreState :=
  runCalls (replicate 9 (deliveryCall (declareWicket (Some 0)) None))
    INITIAL_SCORE_STATE.

(** A state whose ball count disagrees with its (empty) current over; no
    run of calls from the initial state produces it. *)
Definition strayBallCount : ScoreState :=
  {| ScoreState.runs := 0;
     ScoreState.wickets := 0;
     ScoreState.overs := 0;
     ScoreState.balls := 3;
     ScoreState.recentThisOver := [];
     ScoreState.inningsOver := false;
     ScoreState.targetOvers := 20;
     ScoreState.maxWickets := 10 |}.

(** The net effect of an edit as the specification words it: editing ball
    [k], recorded as [A], by the call [d] changes the runs and the wickets
    by the difference of the two outcomes and leaves the overs alone. *)
Definition editNetEffectAsStated (d : Delivery) (k : Z) (s : ScoreState) : Prop :=
  ScoreState.inningsOver s = false ->
  1 <= k <= Z.of_nat (length (ScoreState.recentThisOver s)) ->
  forall A : BallEvent,
    ScoreState.recentThisOver s !! Z.to_nat (k - 1) = Some A ->
    ScoreState.runs (recordDelivery d (Some k) s) - ScoreState.runs s
    = BallEvent.runs (newBallEvent d) - BallEvent.runs A
    /\ ScoreState.wickets (recordDelivery d (Some k) s) - ScoreState.wickets s
       = indicator (BallEvent.isWicket (newBallEvent d))
         - indicator (BallEvent.isWicket A)
    /\ ScoreState.overs (recordDelivery d (Some k) s) = ScoreState.overs s.

(** The four fields that [clearLastBall] is meant to give back. *)
Definition sameOverAndTotals (s1 s2 : ScoreState) : Prop :=
  ScoreState.runs s1 = ScoreState.runs s2
  /\ ScoreState.wickets s1 = ScoreState.wickets s2
  /\ ScoreState.recentThisOver s1 = ScoreState.recentThisOver s2
  /\ ScoreState.balls s1 = ScoreState.balls s2.

(** The clear/append inverse as the specification words it: the call edits
    no ball, its event is appended, the over is not completed by it, and
    [clearLastBall] then gives back the totals and the over of [s]. *)
Definition clearUndoesAppendAsStated (d : Delivery) (bn : option Z) (s : ScoreState) : Prop :=
  ScoreState.inningsOver s = false ->
  isEdit bn (ScoreState.recentThisOver s) = false ->
  updateRecentThisOver bn (newBallEvent d) (ScoreState.recentThisOver s)
  = ScoreState.recentThisOver s ++ [newBallEvent d] ->
  legalCount (ScoreState.recentThisOver s ++ [newBallEvent d]) < 6 ->
  sameOverAndTotals (clearLastDelivery (recordDelivery d bn s)) s.

(** Arguments within the ranges the tool declarations announce (runs
    between 0 and 6). *)
Definition validDelivery (d : Delivery) : Prop :=
  match d with
  | addRuns r => 0 <= r <= 6
  | declareWicket (Some r) => 0 <= r <= 6
  | declareWicket None => True
  | declareExtra _ r => 0 <= r <= 6
  | unknownCall => True
  end.

Definition validCall (fc : FunctionCall) : Prop :=
  match fc with
  | clearLastBall => True
  | deliveryCall d _ => validDelivery d
  end.

(** Runs and wickets recorded in the current over. *)
Definition runsIn (l : list BallEvent) : Z :=
  foldr (fun b acc => BallEvent.runs b + acc) 0 l.

Definition wicketsIn (l : list BallEvent) : Z :=
  foldr (fun b acc => indicator (BallEvent.isWicket b) + acc) 0 l.

(** The totals cover what the current over shows, and nothing is negative. *)
Definition totalsCoverOver (s : ScoreState) : Prop :=
  Forall (fun b => 0 <= BallEvent.runs b) (ScoreState.recentThisOver s)
  /\ runsIn (ScoreState.recentThisOver s) <= ScoreState.runs s
  /\ wicketsIn (ScoreState.recentThisOver s) <= ScoreState.wickets s
  /\ 0 <= ScoreState.overs s
  /\ 0 <= ScoreState.balls s.

(** Concrete states of the scenarios used below. *)
Definition oneWicketLimit : ScoreState :=
  handleMaxWicketsChange (Some 1) INITIAL_SCORE_STATE.

Definition allOut : ScoreState :=
  runCalls [deliveryCall (declareWicket (Some 0)) None] oneWicketLimit.

Definition afterFour : ScoreState :=
  runCalls [deliveryCall (addRuns 4) None] INITIAL_SCORE_STATE.

Definition fourAndWicket : ScoreState :=
  runCalls [deliveryCall (addRuns 4) None;
            deliveryCall (declareWicket (Some 0)) None] INITIAL_SCORE_STATE.

Definition fourAndWide : ScoreState :=
  runCalls [deliveryCall (addRuns 4) None;
            deliveryCall (declareExtra wide 4) None] INITIAL_SCORE_STATE.

Definition fiveSingles : ScoreState :=
  runCalls (replicate 5 (deliveryCall (addRuns 1) None)) INITIAL_SCORE_STATE.

Definition sixSingles : ScoreState :=
  runCalls (replicate 6 (deliveryCall (addRuns 1) None)) INITIAL_SCORE_STATE.

(** ** The page as a whole

    The [New Innings] button is rendered inside
    [{score.inningsOver && (...)}]: it exists, and [resetInnings] can run,
    only while the innings is over. *)
Definition newInningsButton (score : ScoreState) : ScoreState :=
  if ScoreState.inningsOver score then resetInnings score else score.

(** What can change the score: a function call of the speech service
    ([onmessage]), a change of the [max-wickets] input, a click on
    [New Innings]. *)
Inductive AppEvent : Type :=
  | functionCalled (fc : FunctionCall)
  | maxWicketsChanged (newMaxWickets : option Z)
  | newInningsClicked.

Definition appStep (ev : AppEvent) (score : ScoreState) : ScoreState :=
  match ev with
  | functionCalled fc => handleGeminiFunctionCall fc score
  | maxWicketsChanged newMaxWickets => maxWicketsInput newMaxWickets score
  | newInningsClicked => newInningsButton score
  end.

(** The events of a session, applied in order. *)
Definition runApp (events : list AppEvent) (score : ScoreState) : ScoreState :=
  fold_left (fun s ev => appStep ev s) events score.

Definition validEvent (ev : AppEvent) : Prop :=
  match ev with
  | functionCalled fc => validCall fc
  | _ => True
  end.

(** [limitReached s]: the test of Step 6 on the state itself. *)
Definition limitReached (s : ScoreState) : bool :=
  (ScoreState.maxWickets s <=? ScoreState.wickets s)
  || (ScoreState.targetOvers s <=? ScoreState.overs s).

(** What every state of a session satisfies (see [runApp_sessionInvariant]). *)
Definition sessionInvariant (s : ScoreState) : Prop :=
  1 <= ScoreState.maxWickets s
  /\ ScoreState.targetOvers s = 20
  /\ 0 <= ScoreState.overs s
  /\ ScoreState.inningsOver s = limitReached s
  /\ ScoreState.wickets s <= ScoreState.maxWickets s
  /\ ScoreState.overs s <= ScoreState.targetOvers s
  /\ (ScoreState.recentThisOver s = [] \/ ScoreState.overs s < ScoreState.targetOvers s)
  /\ overConsistent s.

(** Runs and wickets of the overs already completed: the totals less what
    the current over shows. *)
Definition bankedRuns (s : ScoreState) : Z :=
  ScoreState.runs s - runsIn (ScoreState.recentThisOver s).

Definition bankedWickets (s : ScoreState) : Z :=
  ScoreState.wickets s - wicketsIn (ScoreState.recentThisOver s).

(** Calls without ball number, one per delivery. *)
Definition appendCalls (ds : list Delivery) : list FunctionCall :=
  map (fun d => deliveryCall d None) ds.

(** The three declared delivery functions, as opposed to any other name. *)
Definition isDeclared (d : Delivery) : bool :=
  match d with
  | unknownCall => false
  | _ => true
  end.

(** A short session: a four, a wicket, a wide for four, the wicket edited
    into a single, a wicket, the last ball cleared, a wicket with a run. *)
Definition scenarioEvents : list AppEvent :=
  [maxWicketsChanged (Some 5);
   functionCalled (deliveryCall (addRuns 4) None);
   functionCalled (deliveryCall (declareWicket (Some 0)) None);
   functionCalled (deliveryCall (declareExtra wide 4) None);
   functionCalled (deliveryCall (addRuns 1) (Some 2));
   functionCalled (deliveryCall (declareWicket None) None);
   functionCalled clearLastBall;
   maxWicketsChanged (Some 7);
   functionCalled (deliveryCall (declareWicket (Some 1)) None)].

Definition scenarioSession : ScoreState :=
  runApp scenarioEvents INITIAL_SCORE_STATE.

(** Nine deliveries, seven of them legal, running into a second over. *)
Definition nineDeliveries : list Delivery :=
  [addRuns 4; declareWicket (Some 0); declareExtra wide 4; addRuns 1;
   addRuns 0; declareExtra no_ball 0; addRuns 6; declareWicket (Some 1);
   addRuns 0].

(** * Properties *)

Section ListFacts.

Lemma legalCount_nil : legalCount [] = 0.
Proof. reflexivity. Qed.

Lemma legalCount_nonneg (l : list BallEvent) : 0 <= legalCount l.
Proof. unfold legalCount. lia. Qed.

Lemma legalCount_snoc (l : list BallEvent) (b : BallEvent) :
  legalCount (l ++ [b]) = legalCount l + indicator (BallEvent.isLegalDelivery b).
Proof.
  unfold legalCount. rewrite List.filter_app, length_app. simpl.
  destruct (BallEvent.isLegalDelivery b); simpl; lia.
Qed.

Lemma legalCount_removelast (l : list BallEvent) :
  legalCount (removelast l) <= legalCount l.
Proof.
  destruct l as [|x l'] using rev_ind; [done|].
  rewrite removelast_last, legalCount_snoc.
  destruct (BallEvent.isLegalDelivery x); simpl; lia.
Qed.

Lemma isEdit_true_iff (n : Z) (l : list BallEvent) :
  isEdit (Some n) l = true <-> 1 <= n <= Z.of_nat (length l).
Proof.
  unfold isEdit. rewrite !andb_true_iff, negb_true_iff.
  rewrite Z.eqb_neq, Z.ltb_lt, Z.leb_le. lia.
Qed.

Lemma isEdit_false_iff (n : Z) (l : list BallEvent) :
  isEdit (Some n) l = false <-> n <= 0 \/ Z.of_nat (length l) < n.
Proof.
  rewrite <- not_true_iff_false, isEdit_true_iff. lia.
Qed.

Lemma isEdit_lookup (bn : option Z) (l : list BallEvent) :
  isEdit bn l = true -> is_Some (l !! originalBallIndex bn).
Proof.
  destruct bn as [n|]; [|done].
  intros H%isEdit_true_iff. apply lookup_lt_is_Some. simpl. lia.
Qed.

End ListFacts.

(** ** Unfolding [recordDelivery] field by field *)

Section RecordDeliveryFields.

Variables (d : Delivery) (bn : option Z) (s : ScoreState).
Hypothesis Hlive : ScoreState.inningsOver s = false.

Local Abbreviation l := (ScoreState.recentThisOver s).
Local Abbreviation b := (newBallEvent d).
Local Abbreviation l4 := (updateRecentThisOver bn b l).

Lemma recordDelivery_overs :
  ScoreState.overs (recordDelivery d bn s)
  = if 6 <=? legalCount l4 then ScoreState.overs s + 1 else ScoreState.overs s.
Proof.
  unfold recordDelivery. rewrite Hlive.
  destruct (isEdit bn l); [destruct (l !! _)|];
    destruct (6 <=? legalCount l4); reflexivity.
Qed.

Lemma recordDelivery_balls :
  ScoreState.balls (recordDelivery d bn s)
  = if 6 <=? legalCount l4 then 0 else legalCount l4.
Proof.
  unfold recordDelivery. rewrite Hlive.
  destruct (isEdit bn l); [destruct (l !! _)|];
    destruct (6 <=? legalCount l4); reflexivity.
Qed.

Lemma recordDelivery_recentThisOver :
  ScoreState.recentThisOver (recordDelivery d bn s)
  = if 6 <=? legalCount l4 then [] else l4.
Proof.
  unfold recordDelivery. rewrite Hlive.
  destruct (isEdit bn l); [destruct (l !! _)|];
    destruct (6 <=? legalCount l4); reflexivity.
Qed.

Lemma recordDelivery_limits :
  ScoreState.maxWickets (recordDelivery d bn s) = ScoreState.maxWickets s
  /\ ScoreState.targetOvers (recordDelivery d bn s) = ScoreState.targetOvers s.
Proof.
  unfold recordDelivery. rewrite Hlive.
  destruct (isEdit bn l); [destruct (l !! _)|];
    destruct (6 <=? legalCount l4); split; reflexivity.
Qed.

Lemma recordDelivery_append_runs :
  isEdit bn l = false ->
  ScoreState.runs (recordDelivery d bn s) = ScoreState.runs s + BallEvent.runs b.
Proof.
  intros He. unfold recordDelivery. rewrite Hlive, He.
  destruct (6 <=? legalCount l4); reflexivity.
Qed.

Lemma recordDelivery_append_wickets :
  isEdit bn l = false ->
  ScoreState.wickets (recordDelivery d bn s)
  = ScoreState.wickets s + indicator (BallEvent.isWicket b).
Proof.
  intros He. unfold recordDelivery. rewrite Hlive, He.
  destruct (6 <=? legalCount l4); simpl;
    destruct (BallEvent.isWicket b); simpl; lia.
Qed.

Lemma recordDelivery_edit_runs (A : BallEvent) :
  isEdit bn l = true -> l !! originalBallIndex bn = Some A ->
  ScoreState.runs (recordDelivery d bn s)
  = ScoreState.runs s - BallEvent.runs A + BallEvent.runs b.
Proof.
  intros He HA. unfold recordDelivery. rewrite Hlive.
  rewrite He, HA. destruct (6 <=? legalCount l4); reflexivity.
Qed.

Lemma recordDelivery_edit_wickets (A : BallEvent) :
  isEdit bn l = true -> l !! originalBallIndex bn = Some A ->
  ScoreState.wickets (recordDelivery d bn s)
  = ScoreState.wickets s - indicator (BallEvent.isWicket A)
    + indicator (BallEvent.isWicket b).
Proof.
  intros He HA. unfold recordDelivery. rewrite Hlive.
  rewrite He, HA. destruct (6 <=? legalCount l4); simpl;
    destruct (BallEvent.isWicket A), (BallEvent.isWicket b); simpl; lia.
Qed.

Lemma recordDelivery_inningsOver :
  ScoreState.inningsOver (recordDelivery d bn s)
  = (ScoreState.maxWickets s <=? ScoreState.wickets (recordDelivery d bn s))
    || (ScoreState.targetOvers s <=? ScoreState.overs (recordDelivery d bn s)).
Proof.
  unfold recordDelivery. rewrite Hlive.
  destruct (isEdit bn l); [destruct (l !! _)|];
    destruct (6 <=? legalCount l4); simpl;
    match goal with |- (if ?c then _ else _) = _ => destruct c end; reflexivity.
Qed.

End RecordDeliveryFields.

(** The whole state after an append that does not complete the over. *)
Lemma recordDelivery_append_state (d : Delivery) (bn : option Z) (s : ScoreState) :
  ScoreState.inningsOver s = false ->
  isEdit bn (ScoreState.recentThisOver s) = false ->
  legalCount (ScoreState.recentThisOver s ++ [newBallEvent d]) < 6 ->
  recordDelivery d bn s
  = {| ScoreState.runs := ScoreState.runs s + BallEvent.runs (newBallEvent d);
       ScoreState.wickets :=
         if BallEvent.isWicket (newBallEvent d)
         then ScoreState.wickets s + 1 else ScoreState.wickets s;
       ScoreState.overs := ScoreState.overs s;
       ScoreState.balls := legalCount (ScoreState.recentThisOver s ++ [newBallEvent d]);
       ScoreState.recentThisOver := ScoreState.recentThisOver s ++ [newBallEvent d];
       ScoreState.inningsOver :=
         (ScoreState.maxWickets s
          <=? (if BallEvent.isWicket (newBallEvent d)
               then ScoreState.wickets s + 1 else ScoreState.wickets s))
         || (ScoreState.targetOvers s <=? ScoreState.overs s);
       ScoreState.targetOvers := ScoreState.targetOvers s;
       ScoreState.maxWickets := ScoreState.maxWickets s |}.
Proof.
  intros Hlive He H6.
  assert (Hl : (legalCount (ScoreState.recentThisOver s) <? 6) = true).
  { apply Z.ltb_lt. rewrite legalCount_snoc in H6.
    destruct (BallEvent.isLegalDelivery (newBallEvent d)); simpl in H6; lia. }
  apply Z.leb_gt in H6.
  unfold recordDelivery, updateRecentThisOver. rewrite Hlive, He, Hl, H6.
  cbv iota zeta beta.
  match goal with |- context [if ?c then true else false] => destruct c end;
    reflexivity.
Qed.

(** ** Classification of a call (Step 2) *)

Example toString_examples :
  toString 0 = "0"%string /\ toString 4 = "4"%string
  /\ toString 12 = "12"%string /\ toString (-3) = "-3"%string.
Proof. repeat split. Qed.

(** C2.  The new ball event reproduces the mapping table of the
    specification: [addRuns r] is a legal, non-wicket ball worth [r] runs
    labelled with the decimal string of [r]; [declareWicket] is a legal
    wicket ball worth the runs on dismissal ([0] when the argument is
    absent), labelled "W" for no runs and "W+d" otherwise; [declareExtra] is
    an illegal, non-wicket ball worth [1 + r] runs that carries its kind and
    is labelled with the runs (left out when [r = 0]) followed by "wd" or
    "nb".  Runs are natural numbers, as the command shapes require. *)
Theorem newBallEvent_mapping_table (r d e : Z) (kind : ExtraType) :
  0 <= d -> 0 <= e ->
  newBallEvent (addRuns r)
  = {| BallEvent.display := toString r;
       BallEvent.runs := r;
       BallEvent.isWicket := false;
       BallEvent.isLegalDelivery := true;
       BallEvent.extraType := None |}
  /\ newBallEvent (declareWicket None)
     = {| BallEvent.display := "W";
          BallEvent.runs := 0;
          BallEvent.isWicket := true;
          BallEvent.isLegalDelivery := true;
          BallEvent.extraType := None |}
  /\ newBallEvent (declareWicket (Some d))
     = {| BallEvent.display :=
            if d =? 0 then "W" else String.append "W+" (toString d);
          BallEvent.runs := d;
          BallEvent.isWicket := true;
          BallEvent.isLegalDelivery := true;
          BallEvent.extraType := None |}
  /\ newBallEvent (declareExtra kind e)
     = {| BallEvent.display :=
            String.append (if e =? 0 then "" else toString e)
              (match kind with wide => "wd" | no_ball => "nb" end);
          BallEvent.runs := 1 + e;
          BallEvent.isWicket := false;
          BallEvent.isLegalDelivery := false;
          BallEvent.extraType := Some kind |}.
Proof.
  intros Hd He. repeat split.
  - simpl. destruct (Z.eqb_spec d 0) as [->|Hn]; [reflexivity|].
    assert ((0 <? d) = true) as -> by (apply Z.ltb_lt; lia). reflexivity.
  - simpl. destruct (Z.eqb_spec e 0) as [->|Hn]; [reflexivity|].
    assert ((0 <? e) = true) as -> by (apply Z.ltb_lt; lia). reflexivity.
Qed.

Lemma newBallEvent_mapping_table_witness :
  BallEvent.display (newBallEvent (addRuns 4)) = "4"%string
  /\ BallEvent.display (newBallEvent (declareWicket (Some 1))) = "W+1"%string
  /\ BallEvent.display (newBallEvent (declareExtra wide 2)) = "2wd"%string.
Proof.
  destruct (newBallEvent_mapping_table 4 1 2 wide) as (Ha & _ & Hw & Hx); [lia | lia |].
  rewrite Ha, Hw, Hx. repeat split.
Defined.

(** Outside the domain of the command shapes the labels differ from the
    table: a negative number of runs on dismissal is credited but not shown. *)
Example newBallEvent_negative_dismissal :
  newBallEvent (declareWicket (Some (-1)))
  = {| BallEvent.display := "W";
       BallEvent.runs := -1;
       BallEvent.isWicket := true;
       BallEvent.isLegalDelivery := true;
       BallEvent.extraType := None |}.
Proof. reflexivity. Qed.

(** ** Terminal states *)

Lemma recordDelivery_terminal (d : Delivery) (bn : option Z) (s : ScoreState) :
  ScoreState.inningsOver s = true -> recordDelivery d bn s = s.
Proof. intros H. unfold recordDelivery. by rewrite H. Qed.

Lemma clearLastDelivery_terminal (s : ScoreState) :
  ScoreState.inningsOver s = true -> clearLastDelivery s = s.
Proof. intros H. unfold clearLastDelivery. by rewrite H. Qed.

Lemma runCalls_app (cs1 cs2 : list FunctionCall) (s : ScoreState) :
  runCalls (cs1 ++ cs2) s = runCalls cs2 (runCalls cs1 s).
Proof. apply fold_left_app. Qed.

Lemma runCalls_snoc (cs : list FunctionCall) (c : FunctionCall) (s : ScoreState) :
  runCalls (cs ++ [c]) s = handleGeminiFunctionCall c (runCalls cs s).
Proof. by rewrite runCalls_app. Qed.

(** C4.  In a state whose innings is over, every delivery call (with or
    without a ball number) and [clearLastBall] return the state unchanged;
    hence no run of such calls changes anything, in particular not the runs,
    the wickets, the overs or the deliveries of the current over. *)
Theorem terminal_state_is_frozen (s : ScoreState) :
  ScoreState.inningsOver s = true ->
  (forall d bn, recordDelivery d bn s = s)
  /\ clearLastDelivery s = s
  /\ (forall calls, runCalls calls s = s).
Proof.
  intros H. split; [|split].
  - intros d bn. by apply recordDelivery_terminal.
  - by apply clearLastDelivery_terminal.
  - intros calls. induction calls as [|c calls IH]; [done|].
    unfold runCalls in *. simpl.
    destruct c as [|d bn]; simpl.
    + rewrite clearLastDelivery_terminal; auto.
    + rewrite recordDelivery_terminal; auto.
Qed.

Lemma terminal_state_is_frozen_witness :
  ScoreState.inningsOver allOut = true
  /\ recordDelivery (addRuns 6) None allOut = allOut
  /\ clearLastDelivery allOut = allOut.
Proof.
  destruct (terminal_state_is_frozen allOut) as (Hd & Hc & _); [reflexivity|].
  split; [reflexivity|]. split; [apply Hd | apply Hc].
Defined.

(** ** Ball numbers that address no recorded ball *)

(** C8.  In a state whose innings is not over, a delivery call whose ball
    number is zero, negative or beyond the deliveries recorded in the
    current over is processed exactly as the same call without a ball
    number (the absent case itself): the new event is appended, unless six
    legal deliveries are already recorded, and nothing is edited or
    rejected.  The state returned shows it: the event's runs and wicket are
    added to the totals, no recorded ball is reverted, and the current over
    is the old one with the new event as its last delivery (cleared, with
    one more over, when that makes six legal deliveries). *)
Theorem out_of_range_ballNumber_appends (d : Delivery) (n : Z) (s : ScoreState) :
  ScoreState.inningsOver s = false ->
  n <= 0 \/ Z.of_nat (length (ScoreState.recentThisOver s)) < n ->
  recordDelivery d (Some n) s = recordDelivery d None s
  /\ updateRecentThisOver (Some n) (newBallEvent d) (ScoreState.recentThisOver s)
     = (if legalCount (ScoreState.recentThisOver s) <? 6
        then ScoreState.recentThisOver s ++ [newBallEvent d]
        else ScoreState.recentThisOver s)
  /\ updateRecentThisOver None (newBallEvent d) (ScoreState.recentThisOver s)
     = (if legalCount (ScoreState.recentThisOver s) <? 6
        then ScoreState.recentThisOver s ++ [newBallEvent d]
        else ScoreState.recentThisOver s)
  /\ ScoreState.runs (recordDelivery d (Some n) s)
     = ScoreState.runs s + BallEvent.runs (newBallEvent d)
  /\ ScoreState.wickets (recordDelivery d (Some n) s)
     = ScoreState.wickets s + indicator (BallEvent.isWicket (newBallEvent d))
  /\ ScoreState.recentThisOver (recordDelivery d (Some n) s)
     = (let appended :=
          if legalCount (ScoreState.recentThisOver s) <? 6
          then ScoreState.recentThisOver s ++ [newBallEvent d]
          else ScoreState.recentThisOver s in
        if 6 <=? legalCount appended then [] else appended)
  /\ (legalCount (ScoreState.recentThisOver s ++ [newBallEvent d]) < 6 ->
      ScoreState.recentThisOver (recordDelivery d (Some n) s)
      = ScoreState.recentThisOver s ++ [newBallEvent d]
      /\ ScoreState.overs (recordDelivery d (Some n) s) = ScoreState.overs s
      /\ ScoreState.balls (recordDelivery d (Some n) s)
         = legalCount (ScoreState.recentThisOver s ++ [newBallEvent d]))
  /\ (legalCount (ScoreState.recentThisOver s) < 6 ->
      6 <= legalCount (ScoreState.recentThisOver s ++ [newBallEvent d]) ->
      ScoreState.recentThisOver (recordDelivery d (Some n) s) = []
      /\ ScoreState.overs (recordDelivery d (Some n) s) = ScoreState.overs s + 1
      /\ ScoreState.balls (recordDelivery d (Some n) s) = 0).
Proof.
  intros Hlive Hn%isEdit_false_iff.
  assert (Hupd : updateRecentThisOver (Some n) (newBallEvent d) (ScoreState.recentThisOver s)
                 = (if legalCount (ScoreState.recentThisOver s) <? 6
                    then ScoreState.recentThisOver s ++ [newBallEvent d]
                    else ScoreState.recentThisOver s)).
  { unfold updateRecentThisOver. by rewrite Hn. }
  split.
  { unfold recordDelivery, updateRecentThisOver. rewrite Hlive, Hn. reflexivity. }
  split; [exact Hupd|]. split; [reflexivity|].
  split; [apply recordDelivery_append_runs; assumption|].
  split; [apply recordDelivery_append_wickets; assumption|].
  rewrite recordDelivery_recentThisOver, recordDelivery_overs,
    recordDelivery_balls by assumption.
  rewrite Hupd. cbv zeta.
  split; [reflexivity|]. split.
  - intros H6.
    assert (Hl : (legalCount (ScoreState.recentThisOver s) <? 6) = true).
    { apply Z.ltb_lt. rewrite legalCount_snoc in H6.
      destruct (BallEvent.isLegalDelivery (newBallEvent d)); simpl in H6; lia. }
    rewrite Hl. apply Z.leb_gt in H6. rewrite H6. auto.
  - intros Hl%Z.ltb_lt H6%Z.leb_le. rewrite Hl, H6. auto.
Qed.

Lemma out_of_range_ballNumber_appends_witness :
  recordDelivery (addRuns 2) (Some 7) afterFour
  = recordDelivery (addRuns 2) None afterFour
  /\ recordDelivery (addRuns 2) (Some 0) afterFour
     = recordDelivery (addRuns 2) None afterFour
  /\ recordDelivery (addRuns 2) (Some (-1)) afterFour
     = recordDelivery (addRuns 2) None afterFour
  /\ ScoreState.recentThisOver (recordDelivery (addRuns 2) (Some 7) afterFour)
     = ScoreState.recentThisOver afterFour ++ [newBallEvent (addRuns 2)]
  /\ ScoreState.runs (recordDelivery (addRuns 2) (Some 7) afterFour)
     = ScoreState.runs afterFour + 2
  /\ ScoreState.balls (recordDelivery (addRuns 2) (Some 7) afterFour) = 2.
Proof.
  destruct (out_of_range_ballNumber_appends (addRuns 2) 7 afterFour)
    as (H7 & _ & _ & Hruns & _ & _ & Happ & _);
    [reflexivity | right; vm_compute; reflexivity |].
  destruct (out_of_range_ballNumber_appends (addRuns 2) 0 afterFour)
    as (H0 & _); [reflexivity | left; lia |].
  destruct (out_of_range_ballNumber_appends (addRuns 2) (-1) afterFour)
    as (Hneg & _); [reflexivity | left; lia |].
  destruct Happ as (Hrec & _ & Hballs); [reflexivity|].
  split; [exact H7|]. split; [exact H0|]. split; [exact Hneg|].
  split; [exact Hrec|]. split; [exact Hruns|].
  rewrite Hballs. reflexivity.
Defined.

(** The same holds in a terminal state, where both calls are ignored. *)
Lemma out_of_range_ballNumber_any_state (d : Delivery) (n : Z) (s : ScoreState) :
  n <= 0 \/ Z.of_nat (length (ScoreState.recentThisOver s)) < n ->
  recordDelivery d (Some n) s = recordDelivery d None s.
Proof.
  intros Hn%isEdit_false_iff. unfold recordDelivery, updateRecentThisOver.
  rewrite Hn. reflexivity.
Qed.

(** ** Completion of an over *)

(** C3.  In a state whose innings is not over, whenever the deliveries of
    the current over after the edit or append of Step 4 hold six legal
    deliveries, the resulting state has one more completed over, no
    delivery in the current over and a ball count of zero.  In particular
    six [addRuns 1] calls from the initial state give one over, an empty
    current over, zero balls and six runs. *)
Theorem over_rollover (d : Delivery) (bn : option Z) (s : ScoreState) :
  ScoreState.inningsOver s = false ->
  6 <= legalCount (updateRecentThisOver bn (newBallEvent d) (ScoreState.recentThisOver s)) ->
  (ScoreState.overs (recordDelivery d bn s) = ScoreState.overs s + 1
   /\ ScoreState.recentThisOver (recordDelivery d bn s) = []
   /\ ScoreState.balls (recordDelivery d bn s) = 0)
  /\ (ScoreState.overs sixSingles = 1
      /\ ScoreState.recentThisOver sixSingles = []
      /\ ScoreState.balls sixSingles = 0
      /\ ScoreState.runs sixSingles = 6).
Proof.
  intros Hlive H6%Z.leb_le. split.
  - rewrite recordDelivery_overs, recordDelivery_recentThisOver,
      recordDelivery_balls by assumption.
    rewrite H6. repeat split.
  - repeat split.
Qed.

Lemma over_rollover_witness :
  ScoreState.overs (recordDelivery (declareWicket (Some 0)) None fiveSingles)
  = ScoreState.overs fiveSingles + 1
  /\ ScoreState.recentThisOver (recordDelivery (declareWicket (Some 0)) None fiveSingles) = []
  /\ ScoreState.balls (recordDelivery (declareWicket (Some 0)) None fiveSingles) = 0.
Proof.
  destruct (over_rollover (declareWicket (Some 0)) None fiveSingles) as [H _];
    [reflexivity | vm_compute; discriminate | exact H].
Defined.

(** ** The cap of six legal deliveries *)

(** C6.  In a state whose innings is not over and whose current over
    already holds six legal deliveries, a delivery call that edits no
    recorded ball does not append its event (Step 4 leaves the array as it
    is, and Step 5 then clears it), yet the event's runs are added to the
    runs and, for a wicket, the wickets grow by one. *)
Theorem seventh_ball_counts_but_is_not_shown (d : Delivery) (bn : option Z) (s : ScoreState) :
  ScoreState.inningsOver s = false ->
  isEdit bn (ScoreState.recentThisOver s) = false ->
  6 <= legalCount (ScoreState.recentThisOver s) ->
  updateRecentThisOver bn (newBallEvent d) (ScoreState.recentThisOver s)
  = ScoreState.recentThisOver s
  /\ ScoreState.recentThisOver (recordDelivery d bn s) = []
  /\ ScoreState.runs (recordDelivery d bn s)
     = ScoreState.runs s + BallEvent.runs (newBallEvent d)
  /\ ScoreState.wickets (recordDelivery d bn s)
     = ScoreState.wickets s + indicator (BallEvent.isWicket (newBallEvent d)).
Proof.
  intros Hlive He H6.
  assert (Hupd : updateRecentThisOver bn (newBallEvent d) (ScoreState.recentThisOver s)
                 = ScoreState.recentThisOver s).
  { unfold updateRecentThisOver. rewrite He.
    destruct (Z.ltb_spec (legalCount (ScoreState.recentThisOver s)) 6); [lia | done]. }
  split; [exact Hupd|].
  rewrite recordDelivery_recentThisOver, recordDelivery_append_runs,
    recordDelivery_append_wickets by assumption.
  rewrite Hupd. apply Z.leb_le in H6. rewrite H6. repeat split.
Qed.

Lemma seventh_ball_counts_but_is_not_shown_witness :
  ScoreState.recentThisOver (recordDelivery (declareWicket (Some 2)) None sixPending) = []
  /\ ScoreState.runs (recordDelivery (declareWicket (Some 2)) None sixPending) = 8
  /\ ScoreState.wickets (recordDelivery (declareWicket (Some 2)) None sixPending) = 1.
Proof.
  destruct (seventh_ball_counts_but_is_not_shown (declareWicket (Some 2)) None sixPending)
    as (_ & Hr & Hruns & Hw);
    [reflexivity | reflexivity | vm_compute; discriminate |].
  rewrite Hr, Hruns, Hw. repeat split.
Defined.

(** ** The ball count of the current over *)

Lemma recordDelivery_overConsistent (d : Delivery) (bn : option Z) (s : ScoreState) :
  overConsistent s -> overConsistent (recordDelivery d bn s).
Proof.
  intros Hs. destruct (ScoreState.inningsOver s) eqn:Hlive.
  - rewrite recordDelivery_terminal; assumption.
  - unfold overConsistent.
    rewrite recordDelivery_balls, recordDelivery_recentThisOver by assumption.
    destruct (Z.leb_spec 6
      (legalCount (updateRecentThisOver bn (newBallEvent d) (ScoreState.recentThisOver s))));
      cbv iota; rewrite ?legalCount_nil; lia.
Qed.

Lemma clearLastDelivery_overConsistent (s : ScoreState) :
  overConsistent s -> overConsistent (clearLastDelivery s).
Proof.
  intros [Hb H5]. unfold clearLastDelivery.
  destruct (ScoreState.inningsOver s || _); [done|].
  destruct (last (ScoreState.recentThisOver s)); [|done].
  split; simpl; [reflexivity|].
  pose proof (legalCount_removelast (ScoreState.recentThisOver s)). lia.
Qed.

Lemma runCalls_overConsistent (calls : list FunctionCall) (s : ScoreState) :
  overConsistent s -> overConsistent (runCalls calls s).
Proof.
  revert s. induction calls as [|c calls IH]; intros s Hs; [exact Hs|].
  apply IH. destruct c; simpl.
  - by apply clearLastDelivery_overConsistent.
  - by apply recordDelivery_overConsistent.
Qed.

(** C9.  In every state reached from the initial state by delivery calls
    and [clearLastBall], the ball count equals the number of legal
    deliveries recorded in the current over, and that number is at most
    five; so the ball count lies in [0,6) and a call that edits no ball is
    always appended: the branch that drops a seventh legal delivery is never
    taken. *)
Theorem reachable_ball_count (calls : list FunctionCall) :
  let s := runCalls calls INITIAL_SCORE_STATE in
  ScoreState.balls s = legalCount (ScoreState.recentThisOver s)
  /\ legalCount (ScoreState.recentThisOver s) <= 5
  /\ 0 <= ScoreState.balls s < 6
  /\ (forall d bn,
        isEdit bn (ScoreState.recentThisOver s) = false ->
        updateRecentThisOver bn (newBallEvent d) (ScoreState.recentThisOver s)
        = ScoreState.recentThisOver s ++ [newBallEvent d]).
Proof.
  intros s.
  assert (Hs : overConsistent s).
  { apply runCalls_overConsistent. split; [reflexivity | simpl; rewrite legalCount_nil; lia]. }
  destruct Hs as [Hb H5].
  pose proof (legalCount_nonneg (ScoreState.recentThisOver s)) as H0.
  split; [exact Hb|]. split; [exact H5|]. split; [lia|].
  intros d bn He. unfold updateRecentThisOver. rewrite He.
  destruct (Z.ltb_spec (legalCount (ScoreState.recentThisOver s)) 6); [done | lia].
Qed.

(** ** Overs made of extras only *)

Lemma legalCount_extras (extras : list (ExtraType * Z)) :
  legalCount (map extraBall extras) = 0.
Proof.
  induction extras as [|x extras IH]; [done|].
  unfold legalCount in *. simpl. exact IH.
Qed.

Lemma runCalls_extras (extras : list (ExtraType * Z)) :
  runCalls (map extraCall extras) INITIAL_SCORE_STATE
  = {| ScoreState.runs := fold_left (fun acc x => acc + (1 + x.2)) extras 0;
       ScoreState.wickets := 0;
       ScoreState.overs := 0;
       ScoreState.balls := 0;
       ScoreState.recentThisOver := map extraBall extras;
       ScoreState.inningsOver := false;
       ScoreState.targetOvers := 20;
       ScoreState.maxWickets := 10 |}.
Proof.
  induction extras as [|x extras IH] using rev_ind; [done|].
  rewrite map_app. simpl. rewrite runCalls_snoc, IH. clear IH.
  unfold handleGeminiFunctionCall, extraCall.
  rewrite recordDelivery_append_state; simpl; try reflexivity.
  - fold (extraBall x).
    rewrite legalCount_snoc, legalCount_extras, map_app, fold_left_app.
    reflexivity.
  - fold (extraBall x). rewrite legalCount_snoc, legalCount_extras. simpl. lia.
Qed.

(** C10.  The deliveries of the current over are not bounded in number:
    however many [declareExtra] calls (without ball number, of any kind and
    runs) are applied from the initial state, every one of them is appended,
    so the current over holds exactly as many deliveries as there were
    calls; no over completes and the ball count stays zero. *)
Theorem extras_are_never_dropped (extras : list (ExtraType * Z)) :
  let s := runCalls (map extraCall extras) INITIAL_SCORE_STATE in
  length (ScoreState.recentThisOver s) = length extras
  /\ ScoreState.recentThisOver s = map extraBall extras
  /\ ScoreState.overs s = 0
  /\ ScoreState.balls s = 0
  /\ ScoreState.inningsOver s = false.
Proof.
  intros s. subst s. rewrite runCalls_extras. simpl.
  rewrite length_map. repeat split.
Qed.

(** The same for [n] identical extras. *)
Corollary n_extras_give_n_deliveries (n : nat) (kind : ExtraType) (r : Z) :
  length (ScoreState.recentThisOver
            (runCalls (replicate n (deliveryCall (declareExtra kind r) None))
               INITIAL_SCORE_STATE)) = n.
Proof.
  replace (replicate n (deliveryCall (declareExtra kind r) None))
    with (map extraCall (replicate n (kind, r)))
    by (induction n; simpl; [done | by f_equal]).
  rewrite runCalls_extras. simpl. by rewrite length_map, length_replicate.
Qed.

(** ** Editing a recorded ball *)

(** C1, as stated, fails: with five singles and a wide recorded, editing
    the wide (ball 6) into a single makes six legal deliveries, so the over
    completes and the overs go from 0 to 1. *)
Lemma edit_can_complete_the_over :
  ~ editNetEffectAsStated (addRuns 1) 6 fiveAndWide.
Proof.
  intros H.
  destruct (H eq_refl) with (A := newBallEvent (declareExtra wide 0))
    as (_ & _ & Hovers).
  - split; vm_compute; discriminate.
  - reflexivity.
  - vm_compute in Hovers. discriminate.
Qed.

(** C1, amended.  In a state whose innings is not over, editing ball [k]
    (1-based, within the current over) from its recorded outcome [A] to the
    outcome [B] of the call changes the runs by [B.runs - A.runs] and the
    wickets by [B.isWicket - A.isWicket] and overwrites slot [k]; the overs
    are unchanged when the over then holds fewer than six legal deliveries,
    and grow by one when it holds six. *)
Theorem edit_net_effect (d : Delivery) (k : Z) (A : BallEvent) (s : ScoreState) :
  ScoreState.inningsOver s = false ->
  1 <= k <= Z.of_nat (length (ScoreState.recentThisOver s)) ->
  ScoreState.recentThisOver s !! Z.to_nat (k - 1) = Some A ->
  let B := newBallEvent d in
  let s' := recordDelivery d (Some k) s in
  let edited := <[Z.to_nat (k - 1) := B]> (ScoreState.recentThisOver s) in
  ScoreState.runs s' - ScoreState.runs s = BallEvent.runs B - BallEvent.runs A
  /\ ScoreState.wickets s' - ScoreState.wickets s
     = indicator (BallEvent.isWicket B) - indicator (BallEvent.isWicket A)
  /\ updateRecentThisOver (Some k) B (ScoreState.recentThisOver s) = edited
  /\ (legalCount edited < 6 -> ScoreState.overs s' = ScoreState.overs s)
  /\ (6 <= legalCount edited -> ScoreState.overs s' = ScoreState.overs s + 1).
Proof.
  intros Hlive Hk%isEdit_true_iff HA B s' edited.
  assert (Hupd : updateRecentThisOver (Some k) B (ScoreState.recentThisOver s) = edited).
  { unfold updateRecentThisOver. by rewrite Hk. }
  subst s'.
  rewrite (recordDelivery_edit_runs d (Some k) s Hlive A Hk HA).
  rewrite (recordDelivery_edit_wickets d (Some k) s Hlive A Hk HA).
  rewrite recordDelivery_overs by assumption. fold B. rewrite Hupd.
  split; [lia|]. split; [lia|]. split; [reflexivity|].
  split; intros H6.
  - apply Z.leb_gt in H6. by rewrite H6.
  - apply Z.leb_le in H6. by rewrite H6.
Qed.

Lemma edit_net_effect_witness :
  ScoreState.runs (recordDelivery (declareWicket (Some 1)) (Some 2) fourAndWide)
  - ScoreState.runs fourAndWide = 1 - 5
  /\ ScoreState.wickets (recordDelivery (declareWicket (Some 1)) (Some 2) fourAndWide)
     - ScoreState.wickets fourAndWide = 1 - 0
  /\ ScoreState.overs (recordDelivery (declareWicket (Some 1)) (Some 2) fourAndWide)
     = ScoreState.overs fourAndWide.
Proof.
  destruct (edit_net_effect (declareWicket (Some 1)) 2
              (newBallEvent (declareExtra wide 4)) fourAndWide)
    as (Hr & Hw & _ & Ho & _);
    [reflexivity | split; vm_compute; discriminate | reflexivity |].
  split; [exact Hr|]. split; [exact Hw|].
  apply Ho. vm_compute. reflexivity.
Defined.

(** ** Clearing the last ball *)

Lemma clearLastDelivery_snoc (s : ScoreState) (l : list BallEvent) (b : BallEvent) :
  ScoreState.inningsOver s = false ->
  ScoreState.recentThisOver s = l ++ [b] ->
  clearLastDelivery s
  = {| ScoreState.runs := ScoreState.runs s - BallEvent.runs b;
       ScoreState.wickets :=
         if BallEvent.isWicket b
         then ScoreState.wickets s - 1 else ScoreState.wickets s;
       ScoreState.overs := ScoreState.overs s;
       ScoreState.balls := legalCount l;
       ScoreState.recentThisOver := l;
       ScoreState.inningsOver := false;
       ScoreState.targetOvers := ScoreState.targetOvers s;
       ScoreState.maxWickets := ScoreState.maxWickets s |}.
Proof.
  intros Hlive Hl. unfold clearLastDelivery. rewrite Hlive, Hl.
  rewrite length_app, last_snoc, removelast_last. simpl.
  replace (length l + 1 =? 0)%nat with false
    by (symmetry; apply Nat.eqb_neq; lia).
  reflexivity.
Qed.

Lemma clearLastDelivery_empty (s : ScoreState) :
  ScoreState.recentThisOver s = [] -> clearLastDelivery s = s.
Proof.
  intros Hl. unfold clearLastDelivery. rewrite Hl. simpl.
  by rewrite orb_true_r.
Qed.

(** C5, as stated, fails twice.  From nine wickets down, a tenth wicket is
    appended without completing the over but ends the innings, after which
    [clearLastBall] is ignored and the wickets stay at ten.  And from a
    state whose ball count is not the count of its current over, the ball
    count comes back recomputed, not restored. *)
Lemma clear_after_append_not_always_inverse :
  ~ clearUndoesAppendAsStated (declareWicket (Some 0)) None nineWickets
  /\ ~ clearUndoesAppendAsStated (declareExtra wide 0) None strayBallCount.
Proof.
  split; intros H.
  - destruct H as (_ & Hw & _); try reflexivity.
    vm_compute in Hw. discriminate.
  - destruct H as (_ & _ & _ & Hb); try reflexivity.
    vm_compute in Hb. discriminate.
Qed.

(** C5, amended.  In a state whose innings is not over and whose ball
    count is the number of legal deliveries of its current over, if a
    delivery call that edits no ball does not complete the over (its event
    is then appended) and does not end the innings, then [clearLastBall]
    on the resulting state restores the runs, the wickets, the deliveries
    of the current over and the ball count. *)
Theorem clear_after_append (d : Delivery) (bn : option Z) (s : ScoreState) :
  ScoreState.inningsOver s = false ->
  ScoreState.balls s = legalCount (ScoreState.recentThisOver s) ->
  isEdit bn (ScoreState.recentThisOver s) = false ->
  legalCount (updateRecentThisOver bn (newBallEvent d) (ScoreState.recentThisOver s)) < 6 ->
  ScoreState.inningsOver (recordDelivery d bn s) = false ->
  updateRecentThisOver bn (newBallEvent d) (ScoreState.recentThisOver s)
  = ScoreState.recentThisOver s ++ [newBallEvent d]
  /\ sameOverAndTotals (clearLastDelivery (recordDelivery d bn s)) s.
Proof.
  intros Hlive Hballs He H6 Hlive'.
  assert (Hupd : updateRecentThisOver bn (newBallEvent d) (ScoreState.recentThisOver s)
                 = ScoreState.recentThisOver s ++ [newBallEvent d]).
  { revert H6. unfold updateRecentThisOver. rewrite He.
    destruct (Z.ltb_spec (legalCount (ScoreState.recentThisOver s)) 6); [done | lia]. }
  split; [exact Hupd|].
  rewrite Hupd in H6.
  rewrite (clearLastDelivery_snoc _ (ScoreState.recentThisOver s) (newBallEvent d));
    [| assumption | by rewrite recordDelivery_append_state].
  rewrite recordDelivery_append_state by assumption.
  unfold sameOverAndTotals. simpl.
  destruct (BallEvent.isWicket (newBallEvent d)); repeat split; lia.
Qed.

Lemma clear_after_append_witness :
  sameOverAndTotals
    (clearLastDelivery (recordDelivery (declareExtra wide 4) None fourAndWicket))
    fourAndWicket.
Proof.
  apply (clear_after_append (declareExtra wide 4) None fourAndWicket);
    reflexivity.
Defined.

(** ** The wickets limit *)

Lemma isGameStarted_false_iff (s : ScoreState) :
  countersNonNegative s ->
  isGameStarted s = false
  <-> ScoreState.runs s = 0 /\ ScoreState.wickets s = 0
      /\ ScoreState.overs s = 0 /\ ScoreState.balls s = 0.
Proof.
  intros (Hr & Hw & Ho & Hb). unfold isGameStarted.
  rewrite !orb_false_iff, !Z.ltb_ge. lia.
Qed.

(** The handler itself asks nothing of the state: the gate is the
    [disabled] attribute of the input. *)
Lemma handleMaxWicketsChange_sets (n : Z) (s : ScoreState) :
  1 <= n -> ScoreState.maxWickets (handleMaxWicketsChange (Some n) s) = n.
Proof.
  intros Hn. unfold handleMaxWicketsChange.
  destruct (Z.ltb_spec 0 n); [reflexivity | lia].
Qed.

(** C7.  Setting the wickets limit to [n >= 1] through the input takes
    effect exactly when the innings has not started, that is when the runs,
    the wickets, the overs and the ball count are all zero: then the limit
    becomes [n] and nothing else changes; in every other state the whole
    state is left as it is.  Counters are non-negative, as the data model
    requires. *)
Theorem wickets_limit_only_before_start (n : Z) (s : ScoreState) :
  1 <= n ->
  countersNonNegative s ->
  (ScoreState.runs s = 0 /\ ScoreState.wickets s = 0
   /\ ScoreState.overs s = 0 /\ ScoreState.balls s = 0 ->
   maxWicketsInput (Some n) s
   = {| ScoreState.runs := ScoreState.runs s;
        ScoreState.wickets := ScoreState.wickets s;
        ScoreState.overs := ScoreState.overs s;
        ScoreState.balls := ScoreState.balls s;
        ScoreState.recentThisOver := ScoreState.recentThisOver s;
        ScoreState.inningsOver := ScoreState.inningsOver s;
        ScoreState.targetOvers := ScoreState.targetOvers s;
        ScoreState.maxWickets := n |})
  /\ (~ (ScoreState.runs s = 0 /\ ScoreState.wickets s = 0
         /\ ScoreState.overs s = 0 /\ ScoreState.balls s = 0) ->
      maxWicketsInput (Some n) s = s).
Proof.
  intros Hn Hs. unfold maxWicketsInput.
  pose proof (isGameStarted_false_iff s Hs) as Hiff.
  destruct (isGameStarted s).
  - split; [|reflexivity].
    intros H0. apply Hiff in H0. discriminate.
  - split.
    + intros _. unfold handleMaxWicketsChange.
      destruct (Z.ltb_spec 0 n); [reflexivity | lia].
    + intros Hne. exfalso. apply Hne. by apply Hiff.
Qed.

Lemma wickets_limit_only_before_start_witness :
  ScoreState.maxWickets (maxWicketsInput (Some 3) INITIAL_SCORE_STATE) = 3
  /\ maxWicketsInput (Some 3) fiveAndWide = fiveAndWide.
Proof.
  split.
  - destruct (wickets_limit_only_before_start 3 INITIAL_SCORE_STATE) as [H _];
      [lia | repeat split; simpl; lia |].
    rewrite H; [reflexivity | repeat split].
  - destruct (wickets_limit_only_before_start 3 fiveAndWide) as [_ H];
      [lia | repeat split; vm_compute; discriminate |].
    apply H. intros (Hr & _). vm_compute in Hr. discriminate.
Defined.

(** ** Counters never go negative under well-formed calls

    This is what makes the non-negativity premise of the wickets-limit
    property harmless: it holds in every state the application can reach. *)

Section Totals.

Lemma runsIn_app (l1 l2 : list BallEvent) : runsIn (l1 ++ l2) = runsIn l1 + runsIn l2.
Proof. induction l1 as [|x l1 IH]; simpl; [lia|]. unfold runsIn in *. simpl. lia. Qed.

Lemma wicketsIn_app (l1 l2 : list BallEvent) :
  wicketsIn (l1 ++ l2) = wicketsIn l1 + wicketsIn l2.
Proof. induction l1 as [|x l1 IH]; simpl; [lia|]. unfold wicketsIn in *. simpl. lia. Qed.

Lemma runsIn_insert (l : list BallEvent) (i : nat) (A B : BallEvent) :
  l !! i = Some A ->
  runsIn (<[i:=B]> l) = runsIn l - BallEvent.runs A + BallEvent.runs B.
Proof.
  intros HA. pose proof (lookup_lt_Some _ _ _ HA) as Hi.
  rewrite insert_take_drop by assumption.
  rewrite <- (take_drop_middle l i A HA) at 3.
  rewrite !runsIn_app. unfold runsIn. simpl. lia.
Qed.

Lemma wicketsIn_insert (l : list BallEvent) (i : nat) (A B : BallEvent) :
  l !! i = Some A ->
  wicketsIn (<[i:=B]> l)
  = wicketsIn l - indicator (BallEvent.isWicket A) + indicator (BallEvent.isWicket B).
Proof.
  intros HA. pose proof (lookup_lt_Some _ _ _ HA) as Hi.
  rewrite insert_take_drop by assumption.
  rewrite <- (take_drop_middle l i A HA) at 3.
  rewrite !wicketsIn_app. unfold wicketsIn. simpl. lia.
Qed.

Lemma runsIn_nonneg (l : list BallEvent) :
  Forall (fun b => 0 <= BallEvent.runs b) l -> 0 <= runsIn l.
Proof. induction 1; unfold runsIn in *; simpl; lia. Qed.

Lemma wicketsIn_nonneg (l : list BallEvent) : 0 <= wicketsIn l.
Proof.
  induction l as [|x l IH]; unfold wicketsIn in *; simpl; [lia|].
  destruct (BallEvent.isWicket x); simpl; lia.
Qed.

Lemma newBallEvent_runs_nonneg (d : Delivery) :
  validDelivery d -> 0 <= BallEvent.runs (newBallEvent d).
Proof.
  destruct d as [r|[r|]|k r|]; simpl; try lia.
  destruct (Z.eqb_spec r 0); lia.
Qed.

Lemma recordDelivery_totalsCoverOver (d : Delivery) (bn : option Z) (s : ScoreState) :
  validDelivery d -> totalsCoverOver s -> totalsCoverOver (recordDelivery d bn s).
Proof.
  intros Hd%newBallEvent_runs_nonneg (Hall & Hr & Hw & Ho & Hb).
  destruct (ScoreState.inningsOver s) eqn:Hlive.
  { rewrite recordDelivery_terminal by assumption. repeat split; assumption. }
  set (l := ScoreState.recentThisOver s) in *.
  set (B := newBallEvent d) in *.
  set (l4 := updateRecentThisOver bn B l).
  assert (H4 : Forall (fun b => 0 <= BallEvent.runs b) l4
               /\ runsIn l4 <= ScoreState.runs (recordDelivery d bn s)
               /\ wicketsIn l4 <= ScoreState.wickets (recordDelivery d bn s)).
  { subst l4. unfold updateRecentThisOver.
    destruct (isEdit bn l) eqn:He.
    - destruct (isEdit_lookup bn l He) as [A HA].
      rewrite (recordDelivery_edit_runs d bn s Hlive A He HA).
      rewrite (recordDelivery_edit_wickets d bn s Hlive A He HA).
      rewrite (runsIn_insert l _ A B HA), (wicketsIn_insert l _ A B HA).
      fold B. split; [by apply Forall_insert | lia].
    - rewrite (recordDelivery_append_runs d bn s Hlive He).
      rewrite (recordDelivery_append_wickets d bn s Hlive He). fold B.
      destruct (legalCount l <? 6).
      + rewrite runsIn_app, wicketsIn_app. unfold runsIn at 2, wicketsIn at 2.
        simpl. split; [|lia].
        apply Forall_app. split; [assumption | by constructor].
      + split; [assumption|].
        destruct (BallEvent.isWicket B); simpl; lia. }
  destruct H4 as (Hall4 & Hr4 & Hw4).
  pose proof (runsIn_nonneg l4 Hall4) as Hr0.
  pose proof (wicketsIn_nonneg l4) as Hw0.
  pose proof (legalCount_nonneg l4) as Hc0.
  unfold totalsCoverOver.
  rewrite recordDelivery_recentThisOver, recordDelivery_overs,
    recordDelivery_balls by assumption.
  fold l B l4.
  destruct (6 <=? legalCount l4); simpl;
    (split; [first [constructor | assumption] |]);
    unfold runsIn, wicketsIn in *; simpl; lia.
Qed.

Lemma clearLastDelivery_totalsCoverOver (s : ScoreState) :
  totalsCoverOver s -> totalsCoverOver (clearLastDelivery s).
Proof.
  intros (Hall & Hr & Hw & Ho & Hb).
  destruct (ScoreState.inningsOver s) eqn:Hlive.
  { rewrite clearLastDelivery_terminal by assumption. repeat split; assumption. }
  assert (Hcase : ScoreState.recentThisOver s = []
                  \/ exists l b, ScoreState.recentThisOver s = l ++ [b]).
  { destruct (ScoreState.recentThisOver s) as [|b l _] using rev_ind;
      [left | right]; eauto. }
  destruct Hcase as [Hl | (l & b & Hl)].
  { rewrite clearLastDelivery_empty by assumption. repeat split; assumption. }
  rewrite (clearLastDelivery_snoc s l b Hlive Hl). rewrite Hl in Hall, Hr, Hw.
  apply Forall_app in Hall as [Hall Hb0].
  rewrite runsIn_app in Hr. rewrite wicketsIn_app in Hw.
  unfold runsIn at 2 in Hr. unfold wicketsIn at 2 in Hw. simpl in Hr, Hw.
  pose proof (legalCount_nonneg l).
  repeat split; simpl; try assumption; try lia.
  destruct (BallEvent.isWicket b); simpl in *; lia.
Qed.

(** Every state reached from the initial one by well-formed calls has
    non-negative counters. *)
Lemma reachable_countersNonNegative (calls : list FunctionCall) :
  Forall validCall calls ->
  countersNonNegative (runCalls calls INITIAL_SCORE_STATE).
Proof.
  intros Hcalls.
  assert (H : totalsCoverOver (runCalls calls INITIAL_SCORE_STATE)).
  { induction calls as [|c calls IH] using rev_ind.
    - repeat split; simpl; try lia. constructor.
    - apply Forall_app in Hcalls as [Hcalls Hc].
      rewrite Forall_singleton in Hc. specialize (IH Hcalls).
      rewrite runCalls_snoc. destruct c as [|d bn]; simpl.
      + apply clearLastDelivery_totalsCoverOver; exact IH.
      + apply recordDelivery_totalsCoverOver; [exact Hc | exact IH]. }
  destruct H as (Hall & Hr & Hw & Ho & Hb).
  pose proof (runsIn_nonneg _ Hall). pose proof (wicketsIn_nonneg
    (ScoreState.recentThisOver (runCalls calls INITIAL_SCORE_STATE))).
  repeat split; lia.
Qed.

End Totals.

(** ** The scenarios of the specification *)

Example scenario_four_wicket_wide_clear :
  map BallEvent.display (ScoreState.recentThisOver afterFour) = ["4"%string]
  /\ (ScoreState.runs fourAndWicket, ScoreState.wickets fourAndWicket,
      ScoreState.balls fourAndWicket) = (4, 1, 2)
  /\ (let s3 := recordDelivery (declareExtra wide 4) None fourAndWicket in
      (ScoreState.runs s3, ScoreState.wickets s3, ScoreState.balls s3,
       map BallEvent.display (ScoreState.recentThisOver s3))
      = (9, 1, 2, ["4"; "W"; "4wd"]%string)
      /\ clearLastDelivery s3 = fourAndWicket).
Proof. repeat split. Qed.

Example scenario_all_out :
  ScoreState.inningsOver allOut = true
  /\ handleGeminiFunctionCall (deliveryCall (addRuns 6) None) allOut = allOut.
Proof. split; reflexivity. Qed.

Example resetInnings_keeps_limit :
  resetInnings allOut = oneWicketLimit.
Proof. reflexivity. Qed.

(** * Further properties of the reducer *)

(** ** One call: either the over completes or the banked totals stay *)

Lemma recordDelivery_step_cases (d : Delivery) (bn : option Z) (s : ScoreState) :
  ScoreState.inningsOver s = false ->
  let l := ScoreState.recentThisOver s in
  let B := newBallEvent d in
  let l4 := updateRecentThisOver bn B l in
  (exists A, isEdit bn l = true /\ l !! originalBallIndex bn = Some A
             /\ l4 = <[originalBallIndex bn := B]> l
             /\ ScoreState.runs (recordDelivery d bn s)
                = ScoreState.runs s - BallEvent.runs A + BallEvent.runs B
             /\ ScoreState.wickets (recordDelivery d bn s)
                = ScoreState.wickets s - indicator (BallEvent.isWicket A)
                  + indicator (BallEvent.isWicket B))
  \/ (isEdit bn l = false
      /\ l4 = (if legalCount l <? 6 then l ++ [B] else l)
      /\ ScoreState.runs (recordDelivery d bn s) = ScoreState.runs s + BallEvent.runs B
      /\ ScoreState.wickets (recordDelivery d bn s)
         = ScoreState.wickets s + indicator (BallEvent.isWicket B)).
Proof.
  intros Hlive l B l4. subst l4. unfold updateRecentThisOver.
  destruct (isEdit bn l) eqn:He.
  - left. destruct (isEdit_lookup bn l He) as [A HA]. exists A.
    split; [reflexivity|]. split; [exact HA|]. split; [reflexivity|].
    split.
    + apply recordDelivery_edit_runs; assumption.
    + apply recordDelivery_edit_wickets; assumption.
  - right. split; [reflexivity|]. split; [reflexivity|]. split.
    + apply recordDelivery_append_runs; assumption.
    + apply recordDelivery_append_wickets; assumption.
Qed.

Lemma runsIn_snoc (l : list BallEvent) (b : BallEvent) :
  runsIn (l ++ [b]) = runsIn l + BallEvent.runs b.
Proof. rewrite runsIn_app. unfold runsIn at 2. simpl. lia. Qed.

Lemma wicketsIn_snoc (l : list BallEvent) (b : BallEvent) :
  wicketsIn (l ++ [b]) = wicketsIn l + indicator (BallEvent.isWicket b).
Proof. rewrite wicketsIn_app. unfold wicketsIn at 2. simpl. lia. Qed.

Lemma recent_cases (s : ScoreState) :
  ScoreState.recentThisOver s = []
  \/ exists l b, ScoreState.recentThisOver s = l ++ [b].
Proof.
  destruct (ScoreState.recentThisOver s) as [|b l _] using rev_ind;
    [left | right]; eauto.
Qed.

Lemma clearLastDelivery_keeps_banked (s : ScoreState) :
  ScoreState.overs (clearLastDelivery s) = ScoreState.overs s
  /\ bankedRuns (clearLastDelivery s) = bankedRuns s
  /\ bankedWickets (clearLastDelivery s) = bankedWickets s.
Proof.
  destruct (ScoreState.inningsOver s) eqn:Hlive.
  { rewrite clearLastDelivery_terminal; auto. }
  destruct (recent_cases s) as [Hl | (l & b & Hl)].
  - rewrite clearLastDelivery_empty by assumption. auto.
  - rewrite (clearLastDelivery_snoc s l b Hlive Hl).
    unfold bankedRuns, bankedWickets. simpl. rewrite Hl.
    rewrite runsIn_snoc, wicketsIn_snoc.
    destruct (BallEvent.isWicket b); simpl; repeat split; lia.
Qed.

Lemma recordDelivery_over_or_banked (d : Delivery) (bn : option Z) (s : ScoreState) :
  (ScoreState.overs (recordDelivery d bn s) = ScoreState.overs s + 1
   /\ ScoreState.recentThisOver (recordDelivery d bn s) = []
   /\ ScoreState.balls (recordDelivery d bn s) = 0)
  \/ (ScoreState.overs (recordDelivery d bn s) = ScoreState.overs s
      /\ bankedRuns (recordDelivery d bn s) = bankedRuns s
      /\ bankedWickets (recordDelivery d bn s) = bankedWickets s).
Proof.
  destruct (ScoreState.inningsOver s) eqn:Hlive.
  { right. rewrite recordDelivery_terminal; auto. }
  pose proof (recordDelivery_step_cases d bn s Hlive) as Hcases.
  pose proof (recordDelivery_overs d bn s Hlive) as Ho.
  pose proof (recordDelivery_recentThisOver d bn s Hlive) as Hrec.
  pose proof (recordDelivery_balls d bn s Hlive) as Hb.
  simpl in Hcases.
  destruct (Z.leb_spec 6 (legalCount
    (updateRecentThisOver bn (newBallEvent d) (ScoreState.recentThisOver s))))
    as [H6 | H6].
  { left. auto. }
  right. split; [exact Ho|]. unfold bankedRuns, bankedWickets. rewrite Hrec.
  destruct Hcases as [(A & He & HA & Hl4 & Hr & Hw) | (He & Hl4 & Hr & Hw)].
  - rewrite Hl4, Hr, Hw.
    rewrite (runsIn_insert _ _ A _ HA), (wicketsIn_insert _ _ A _ HA). lia.
  - rewrite Hr, Hw. rewrite Hl4 in H6 |- *.
    destruct (Z.ltb_spec (legalCount (ScoreState.recentThisOver s)) 6); [|lia].
    rewrite runsIn_snoc, wicketsIn_snoc. lia.
Qed.

Lemma handle_over_or_banked (fc : FunctionCall) (s : ScoreState) :
  let s' := handleGeminiFunctionCall fc s in
  (ScoreState.overs s' = ScoreState.overs s + 1
   /\ ScoreState.recentThisOver s' = []
   /\ ScoreState.balls s' = 0)
  \/ (ScoreState.overs s' = ScoreState.overs s
      /\ bankedRuns s' = bankedRuns s
      /\ bankedWickets s' = bankedWickets s).
Proof.
  destruct fc as [|d bn]; simpl.
  - right. apply clearLastDelivery_keeps_banked.
  - apply recordDelivery_over_or_banked.
Qed.

(** Whatever the state and the call, either the call completes the over
    (one more over, empty current over, ball count zero), or it leaves the
    overs and the banked runs and wickets exactly as they were: a call can
    only move runs and wickets in and out of the current over.  Clearing is
    always of the second kind. *)
Theorem call_completes_over_or_keeps_banked (fc : FunctionCall) (s : ScoreState) :
  let s' := handleGeminiFunctionCall fc s in
  ((ScoreState.overs s' = ScoreState.overs s + 1
    /\ ScoreState.recentThisOver s' = []
    /\ ScoreState.balls s' = 0)
   \/ (ScoreState.overs s' = ScoreState.overs s
       /\ bankedRuns s' = bankedRuns s
       /\ bankedWickets s' = bankedWickets s))
  /\ (fc = clearLastBall ->
      ScoreState.overs s' = ScoreState.overs s
      /\ bankedRuns s' = bankedRuns s
      /\ bankedWickets s' = bankedWickets s).
Proof.
  intros s'. subst s'. split.
  - destruct fc as [|d bn]; simpl.
    + right. apply clearLastDelivery_keeps_banked.
    + apply recordDelivery_over_or_banked.
  - intros ->. simpl. apply clearLastDelivery_keeps_banked.
Qed.

Lemma call_completes_over_or_keeps_banked_witness :
  bankedRuns (handleGeminiFunctionCall clearLastBall scenarioSession)
  = bankedRuns scenarioSession.
Proof.
  destruct (call_completes_over_or_keeps_banked clearLastBall scenarioSession)
    as [_ H].
  destruct (H eq_refl) as (_ & Hr & _). exact Hr.
Defined.

(** ** What holds throughout a session *)

Lemma runApp_snoc (evs : list AppEvent) (ev : AppEvent) (s : ScoreState) :
  runApp (evs ++ [ev]) s = appStep ev (runApp evs s).
Proof. unfold runApp. by rewrite fold_left_app. Qed.

Lemma recordDelivery_wickets_le (d : Delivery) (bn : option Z) (s : ScoreState) :
  ScoreState.inningsOver s = false ->
  ScoreState.wickets (recordDelivery d bn s) <= ScoreState.wickets s + 1.
Proof.
  intros Hlive.
  destruct (recordDelivery_step_cases d bn s Hlive)
    as [(A & _ & _ & _ & _ & Hw) | (_ & _ & _ & Hw)]; rewrite Hw;
    repeat match goal with |- context [indicator ?c] => destruct c; simpl end; lia.
Qed.

Lemma recordDelivery_sessionInvariant (d : Delivery) (bn : option Z) (s : ScoreState) :
  sessionInvariant s -> sessionInvariant (recordDelivery d bn s).
Proof.
  intros Hs. destruct (ScoreState.inningsOver s) eqn:Hlive.
  { rewrite recordDelivery_terminal; assumption. }
  pose proof (recordDelivery_overConsistent d bn s) as Hcons.
  destruct Hs as (Hm & Ht & Ho0 & Hflag & Hw & Ho & Hrec & Hc).
  rewrite Hlive in Hflag. symmetry in Hflag. unfold limitReached in Hflag.
  apply orb_false_iff in Hflag as [Hwl%Z.leb_gt Hol%Z.leb_gt].
  pose proof (recordDelivery_limits d bn s Hlive) as [Hm' Ht'].
  pose proof (recordDelivery_wickets_le d bn s Hlive) as Hw'.
  pose proof (recordDelivery_overs d bn s Hlive) as Ho'.
  pose proof (recordDelivery_recentThisOver d bn s Hlive) as Hrec'.
  pose proof (recordDelivery_inningsOver d bn s Hlive) as Hflag'.
  specialize (Hcons Hc).
  unfold sessionInvariant, limitReached. rewrite Hm', Ht', Hflag'.
  destruct (6 <=? legalCount
    (updateRecentThisOver bn (newBallEvent d) (ScoreState.recentThisOver s)));
    split_and!; auto; try lia; rewrite ?Hrec'; auto; right; lia.
Qed.

Lemma clearLastDelivery_sessionInvariant (s : ScoreState) :
  sessionInvariant s -> sessionInvariant (clearLastDelivery s).
Proof.
  intros Hs. destruct (ScoreState.inningsOver s) eqn:Hlive.
  { rewrite clearLastDelivery_terminal; assumption. }
  destruct (recent_cases s) as [Hl | (l & b & Hl)].
  { rewrite clearLastDelivery_empty; assumption. }
  pose proof (clearLastDelivery_overConsistent s) as Hcons.
  destruct Hs as (Hm & Ht & Ho0 & Hflag & Hw & Ho & Hrec & Hc).
  specialize (Hcons Hc).
  rewrite Hlive in Hflag. symmetry in Hflag. unfold limitReached in Hflag.
  apply orb_false_iff in Hflag as [Hwl%Z.leb_gt Hol%Z.leb_gt].
  rewrite (clearLastDelivery_snoc s l b Hlive Hl) in Hcons |- *.
  unfold sessionInvariant, limitReached. simpl.
  assert (Hw' : (if BallEvent.isWicket b
                 then ScoreState.wickets s - 1 else ScoreState.wickets s)
                <= ScoreState.wickets s) by (destruct (BallEvent.isWicket b); lia).
  split_and!; auto; try lia.
Qed.

Lemma maxWicketsInput_sessionInvariant (v : option Z) (s : ScoreState) :
  sessionInvariant s -> sessionInvariant (maxWicketsInput v s).
Proof.
  intros Hs. unfold maxWicketsInput.
  destruct (isGameStarted s) eqn:Hstarted; [assumption|].
  unfold handleMaxWicketsChange. destruct v as [n|]; [|assumption].
  destruct (Z.ltb_spec 0 n) as [Hn|]; [|assumption].
  destruct Hs as (Hm & Ht & Ho0 & Hflag & Hw & Ho & Hrec & Hc).
  unfold isGameStarted in Hstarted.
  rewrite !orb_false_iff, !Z.ltb_ge in Hstarted.
  destruct Hstarted as (((Hr0 & Hw0) & Hov0) & Hb0).
  unfold limitReached in Hflag.
  assert (Hfalse : ScoreState.inningsOver s = false).
  { rewrite Hflag. apply orb_false_iff. split; apply Z.leb_gt; lia. }
  unfold sessionInvariant, limitReached. simpl.
  split_and!; auto; try lia.
  rewrite Hfalse. symmetry. apply orb_false_iff. split; apply Z.leb_gt; lia.
Qed.

Lemma resetInnings_sessionInvariant (s : ScoreState) :
  1 <= ScoreState.maxWickets s -> sessionInvariant (resetInnings s).
Proof.
  intros Hm. unfold sessionInvariant, limitReached, overConsistent. simpl.
  rewrite legalCount_nil. split_and!; auto; try lia.
Qed.

Lemma appStep_sessionInvariant (ev : AppEvent) (s : ScoreState) :
  sessionInvariant s -> sessionInvariant (appStep ev s).
Proof.
  intros Hs. destruct ev as [[|d bn]|v|]; simpl.
  - by apply clearLastDelivery_sessionInvariant.
  - by apply recordDelivery_sessionInvariant.
  - by apply maxWicketsInput_sessionInvariant.
  - unfold newInningsButton. destruct (ScoreState.inningsOver s); [|assumption].
    apply resetInnings_sessionInvariant. apply Hs.
Qed.

Lemma runApp_sessionInvariant (events : list AppEvent) :
  sessionInvariant (runApp events INITIAL_SCORE_STATE).
Proof.
  induction events as [|ev events IH] using rev_ind.
  - unfold sessionInvariant, limitReached, overConsistent. simpl.
    rewrite legalCount_nil. split_and!; auto; lia.
  - rewrite runApp_snoc. apply appStep_sessionInvariant, IH.
Qed.

(** Throughout a session (function calls, changes of the wickets limit and
    new innings, in any order and with any arguments) the overs limit stays
    20, the wickets limit stays at least 1, and the innings is flagged over
    exactly when the wickets have reached their limit or the overs
    theirs. *)
Theorem innings_over_iff_limit_reached (events : list AppEvent) :
  let s := runApp events INITIAL_SCORE_STATE in
  ScoreState.targetOvers s = 20
  /\ 1 <= ScoreState.maxWickets s
  /\ ScoreState.inningsOver s
     = (ScoreState.maxWickets s <=? ScoreState.wickets s)
       || (20 <=? ScoreState.overs s).
Proof.
  intros s.
  destruct (runApp_sessionInvariant events) as (Hm & Ht & _ & Hflag & _).
  fold s in Hm, Ht, Hflag. unfold limitReached in Hflag. rewrite Ht in Hflag.
  auto.
Qed.

(** Throughout a session the wickets never exceed the wickets limit and
    the overs lie between 0 and 20; the ball count is the number of legal
    deliveries shown, at most five; and once twenty overs are bowled the
    current over is empty. *)
Theorem score_stays_within_limits (events : list AppEvent) :
  let s := runApp events INITIAL_SCORE_STATE in
  ScoreState.wickets s <= ScoreState.maxWickets s
  /\ 0 <= ScoreState.overs s <= 20
  /\ ScoreState.balls s = legalCount (ScoreState.recentThisOver s)
  /\ 0 <= ScoreState.balls s <= 5
  /\ (ScoreState.recentThisOver s = [] \/ ScoreState.overs s < 20).
Proof.
  intros s.
  destruct (runApp_sessionInvariant events)
    as (_ & Ht & Ho0 & _ & Hw & Ho & Hrec & Hb & H5).
  fold s in Ht, Ho0, Hw, Ho, Hrec, Hb, H5. rewrite Ht in Ho, Hrec.
  pose proof (legalCount_nonneg (ScoreState.recentThisOver s)).
  repeat split; auto; lia.
Qed.

(** ** Accounting *)

Lemma maxWicketsInput_fields (v : option Z) (s : ScoreState) :
  ScoreState.runs (maxWicketsInput v s) = ScoreState.runs s
  /\ ScoreState.wickets (maxWicketsInput v s) = ScoreState.wickets s
  /\ ScoreState.overs (maxWicketsInput v s) = ScoreState.overs s
  /\ ScoreState.balls (maxWicketsInput v s) = ScoreState.balls s
  /\ ScoreState.recentThisOver (maxWicketsInput v s) = ScoreState.recentThisOver s
  /\ ScoreState.inningsOver (maxWicketsInput v s) = ScoreState.inningsOver s
  /\ ScoreState.targetOvers (maxWicketsInput v s) = ScoreState.targetOvers s.
Proof.
  unfold maxWicketsInput, handleMaxWicketsChange.
  destruct (isGameStarted s); [by split_and!|].
  destruct v as [n|]; [|by split_and!].
  destruct (0 <? n); by split_and!.
Qed.

Lemma appStep_first_over (ev : AppEvent) (s : ScoreState) :
  0 <= ScoreState.overs s ->
  (ScoreState.overs s = 0 -> bankedRuns s = 0 /\ bankedWickets s = 0) ->
  ScoreState.overs (appStep ev s) = 0 ->
  bankedRuns (appStep ev s) = 0 /\ bankedWickets (appStep ev s) = 0.
Proof.
  intros Ho0 Hs. destruct ev as [fc|v|]; simpl.
  - destruct (handle_over_or_banked fc s) as [(Ho & _) | (Ho & Hr & Hw)];
      intros H0; [lia|].
    rewrite Hr, Hw. apply Hs. lia.
  - destruct (maxWicketsInput_fields v s) as (Hr & Hw & Ho & _ & Hrec & _).
    unfold bankedRuns, bankedWickets. rewrite Hr, Hw, Ho, Hrec. exact Hs.
  - unfold newInningsButton. destruct (ScoreState.inningsOver s); [|exact Hs].
    intros _. split; reflexivity.
Qed.

(** In the first over of an innings (no over completed yet), whatever was
    appended, edited or cleared so far, the runs are exactly the sum of the
    runs of the deliveries shown for the current over and the wickets are
    exactly the number of wicket deliveries among them. *)
Theorem first_over_accounting (events : list AppEvent) :
  let s := runApp events INITIAL_SCORE_STATE in
  ScoreState.overs s = 0 ->
  ScoreState.runs s = runsIn (ScoreState.recentThisOver s)
  /\ ScoreState.wickets s = wicketsIn (ScoreState.recentThisOver s).
Proof.
  intros s.
  assert (H : ScoreState.overs s = 0 -> bankedRuns s = 0 /\ bankedWickets s = 0).
  { subst s. induction events as [|ev events IH] using rev_ind.
    - intros _. split; reflexivity.
    - rewrite runApp_snoc. apply appStep_first_over; [|exact IH].
      apply (runApp_sessionInvariant events). }
  intros H0. destruct (H H0) as [Hr Hw].
  unfold bankedRuns, bankedWickets in Hr, Hw. lia.
Qed.

Lemma first_over_accounting_witness :
  ScoreState.overs scenarioSession = 0
  /\ ScoreState.runs scenarioSession
     = runsIn (ScoreState.recentThisOver scenarioSession)
  /\ ScoreState.wickets scenarioSession
     = wicketsIn (ScoreState.recentThisOver scenarioSession).
Proof.
  split; [reflexivity|].
  apply (first_over_accounting scenarioEvents). reflexivity.
Defined.

Lemma runCalls_terminal (calls : list FunctionCall) (s : ScoreState) :
  ScoreState.inningsOver s = true -> runCalls calls s = s.
Proof.
  intros H. induction calls as [|c calls IH] using rev_ind; [done|].
  rewrite runCalls_snoc, IH. destruct c as [|d bn]; simpl.
  - apply clearLastDelivery_terminal, H.
  - apply recordDelivery_terminal, H.
Qed.

Lemma runCalls_live_start (calls : list FunctionCall) (s : ScoreState) :
  ScoreState.inningsOver (runCalls calls s) = false ->
  ScoreState.inningsOver s = false.
Proof.
  intros H. destruct (ScoreState.inningsOver s) eqn:Hs; [|reflexivity].
  rewrite runCalls_terminal in H by assumption. congruence.
Qed.

(** Run and wicket conservation: if deliveries are dictated without ball
    numbers and the innings is still open after the last of them, every one
    of them has been counted: the runs have grown by the sum of the runs of
    their events and the wickets by the number of wickets among them,
    across over boundaries. *)
Theorem appended_deliveries_are_all_counted (ds : list Delivery) (s : ScoreState) :
  ScoreState.inningsOver (runCalls (appendCalls ds) s) = false ->
  ScoreState.runs (runCalls (appendCalls ds) s)
  = ScoreState.runs s + runsIn (map newBallEvent ds)
  /\ ScoreState.wickets (runCalls (appendCalls ds) s)
     = ScoreState.wickets s + wicketsIn (map newBallEvent ds).
Proof.
  induction ds as [|d ds IH] using rev_ind.
  - intros _. unfold runsIn, wicketsIn. simpl. lia.
  - unfold appendCalls in *. rewrite !map_app. simpl.
    rewrite runCalls_snoc. simpl. intros Hlive.
    set (s1 := runCalls (map (fun d0 => deliveryCall d0 None) ds) s) in *.
    assert (Hlive1 : ScoreState.inningsOver s1 = false).
    { destruct (ScoreState.inningsOver s1) eqn:H1; [|reflexivity].
      rewrite recordDelivery_terminal in Hlive by assumption. congruence. }
    destruct (IH Hlive1) as [Hr Hw].
    rewrite recordDelivery_append_runs, recordDelivery_append_wickets
      by (assumption || reflexivity).
    rewrite runsIn_snoc, wicketsIn_snoc. lia.
Qed.

Lemma appended_deliveries_are_all_counted_witness :
  ScoreState.runs (runCalls (appendCalls nineDeliveries) INITIAL_SCORE_STATE) = 18
  /\ ScoreState.wickets (runCalls (appendCalls nineDeliveries) INITIAL_SCORE_STATE) = 2.
Proof.
  destruct (appended_deliveries_are_all_counted nineDeliveries INITIAL_SCORE_STATE)
    as [Hr Hw]; [reflexivity|].
  rewrite Hr, Hw. split; reflexivity.
Defined.

(** ** Counters of a session *)

Lemma appStep_totalsCoverOver (ev : AppEvent) (s : ScoreState) :
  validEvent ev -> totalsCoverOver s -> totalsCoverOver (appStep ev s).
Proof.
  intros Hev Hs. destruct ev as [[|d bn]|v|]; simpl.
  - apply clearLastDelivery_totalsCoverOver, Hs.
  - apply recordDelivery_totalsCoverOver; assumption.
  - destruct (maxWicketsInput_fields v s) as (Hr & Hw & Ho & Hb & Hrec & _).
    unfold totalsCoverOver. rewrite Hr, Hw, Ho, Hb, Hrec. exact Hs.
  - unfold newInningsButton. destruct (ScoreState.inningsOver s); [|exact Hs].
    unfold totalsCoverOver, runsIn, wicketsIn. simpl.
    split_and!; auto; try lia.
Qed.

(** Throughout a session whose function calls carry runs between 0 and 6,
    no counter is ever negative (edits and clears never take away more than
    was added), and the runs and wickets shown for the current over never
    exceed the totals. *)
Theorem session_counters_nonnegative (events : list AppEvent) :
  Forall validEvent events ->
  let s := runApp events INITIAL_SCORE_STATE in
  countersNonNegative s
  /\ runsIn (ScoreState.recentThisOver s) <= ScoreState.runs s
  /\ wicketsIn (ScoreState.recentThisOver s) <= ScoreState.wickets s.
Proof.
  intros Hev s.
  assert (H : totalsCoverOver s).
  { subst s. induction events as [|ev events IH] using rev_ind.
    - unfold totalsCoverOver, runsIn, wicketsIn. simpl. split_and!; auto; lia.
    - apply Forall_app in Hev as [Hevs Hev]. rewrite Forall_singleton in Hev.
      rewrite runApp_snoc. apply appStep_totalsCoverOver; auto. }
  destruct H as (Hall & Hr & Hw & Ho & Hb).
  pose proof (runsIn_nonneg _ Hall).
  pose proof (wicketsIn_nonneg (ScoreState.recentThisOver s)).
  unfold countersNonNegative. split_and!; lia.
Qed.

Lemma session_counters_nonnegative_witness :
  countersNonNegative scenarioSession.
Proof.
  apply (session_counters_nonnegative scenarioEvents).
  repeat constructor; simpl; lia.
Defined.

(** ** Edits *)

Lemma ScoreState_ext (s1 s2 : ScoreState) :
  ScoreState.runs s1 = ScoreState.runs s2 ->
  ScoreState.wickets s1 = ScoreState.wickets s2 ->
  ScoreState.overs s1 = ScoreState.overs s2 ->
  ScoreState.balls s1 = ScoreState.balls s2 ->
  ScoreState.recentThisOver s1 = ScoreState.recentThisOver s2 ->
  ScoreState.inningsOver s1 = ScoreState.inningsOver s2 ->
  ScoreState.targetOvers s1 = ScoreState.targetOvers s2 ->
  ScoreState.maxWickets s1 = ScoreState.maxWickets s2 ->
  s1 = s2.
Proof. destruct s1, s2. simpl. intros. congruence. Qed.

(** Two live states that agree on the overs and the limits, and from which
    a call reaches the same runs, wickets and Step 4 array, are taken by
    that call to the same state. *)
Lemma recordDelivery_ext (d1 d2 : Delivery) (bn1 bn2 : option Z) (s1 s2 : ScoreState) :
  ScoreState.inningsOver s1 = false ->
  ScoreState.inningsOver s2 = false ->
  ScoreState.overs s1 = ScoreState.overs s2 ->
  ScoreState.targetOvers s1 = ScoreState.targetOvers s2 ->
  ScoreState.maxWickets s1 = ScoreState.maxWickets s2 ->
  updateRecentThisOver bn1 (newBallEvent d1) (ScoreState.recentThisOver s1)
  = updateRecentThisOver bn2 (newBallEvent d2) (ScoreState.recentThisOver s2) ->
  ScoreState.runs (recordDelivery d1 bn1 s1) = ScoreState.runs (recordDelivery d2 bn2 s2) ->
  ScoreState.wickets (recordDelivery d1 bn1 s1)
  = ScoreState.wickets (recordDelivery d2 bn2 s2) ->
  recordDelivery d1 bn1 s1 = recordDelivery d2 bn2 s2.
Proof.
  intros H1 H2 Ho Ht Hm Hl Hr Hw.
  pose proof (recordDelivery_limits d1 bn1 s1 H1) as [Hm1 Ht1].
  pose proof (recordDelivery_limits d2 bn2 s2 H2) as [Hm2 Ht2].
  assert (Ho' : ScoreState.overs (recordDelivery d1 bn1 s1)
                = ScoreState.overs (recordDelivery d2 bn2 s2)).
  { rewrite !recordDelivery_overs by assumption. by rewrite Hl, Ho. }
  apply ScoreState_ext; try assumption; try congruence.
  - rewrite !recordDelivery_balls by assumption. by rewrite Hl.
  - rewrite !recordDelivery_recentThisOver by assumption. by rewrite Hl.
  - rewrite !recordDelivery_inningsOver by assumption.
    by rewrite Hw, Ho', Hm, Ht.
Qed.

(** An edit that does not complete the over overwrites slot [k] and nothing
    else in the current over: the over keeps its length, ball [k] now reads
    as the new event, every other ball reads as before. *)
Theorem edit_overwrites_only_ball_k (d : Delivery) (k : Z) (s : ScoreState) :
  ScoreState.inningsOver s = false ->
  1 <= k <= Z.of_nat (length (ScoreState.recentThisOver s)) ->
  legalCount (<[Z.to_nat (k - 1) := newBallEvent d]> (ScoreState.recentThisOver s)) < 6 ->
  let over' := ScoreState.recentThisOver (recordDelivery d (Some k) s) in
  length over' = length (ScoreState.recentThisOver s)
  /\ over' !! Z.to_nat (k - 1) = Some (newBallEvent d)
  /\ (forall j, j <> Z.to_nat (k - 1) -> over' !! j = ScoreState.recentThisOver s !! j).
Proof.
  intros Hlive Hk H6 over'.
  assert (Hover : over' = <[Z.to_nat (k - 1) := newBallEvent d]> (ScoreState.recentThisOver s)).
  { subst over'. rewrite recordDelivery_recentThisOver by assumption.
    unfold updateRecentThisOver.
    rewrite (proj2 (isEdit_true_iff k _) Hk). simpl.
    apply Z.leb_gt in H6. by rewrite H6. }
  rewrite Hover. split_and!.
  - apply length_insert.
  - apply list_lookup_insert_eq. lia.
  - intros j Hj. apply list_lookup_insert_ne. congruence.
Qed.

Lemma edit_overwrites_only_ball_k_witness :
  ScoreState.recentThisOver (recordDelivery (declareWicket (Some 1)) (Some 2) fourAndWide)
  !! 1%nat = Some (newBallEvent (declareWicket (Some 1)))
  /\ ScoreState.recentThisOver (recordDelivery (declareWicket (Some 1)) (Some 2) fourAndWide)
     !! 0%nat = ScoreState.recentThisOver fourAndWide !! 0%nat.
Proof.
  destruct (edit_overwrites_only_ball_k (declareWicket (Some 1)) 2 fourAndWide)
    as (_ & Hk & Hother);
    [reflexivity | split; vm_compute; discriminate | reflexivity |].
  split; [exact Hk | apply Hother; discriminate].
Defined.

(** Edits are last-write-wins: if editing ball [k] neither completes the
    over nor ends the innings, then a second edit of the same ball gives
    the very state that this second edit alone would have given. *)
Theorem edit_last_write_wins (d1 d2 : Delivery) (k : Z) (s : ScoreState) :
  ScoreState.inningsOver s = false ->
  1 <= k <= Z.of_nat (length (ScoreState.recentThisOver s)) ->
  legalCount (<[Z.to_nat (k - 1) := newBallEvent d1]> (ScoreState.recentThisOver s)) < 6 ->
  ScoreState.inningsOver (recordDelivery d1 (Some k) s) = false ->
  recordDelivery d2 (Some k) (recordDelivery d1 (Some k) s)
  = recordDelivery d2 (Some k) s.
Proof.
  intros Hlive Hk H6 Hlive1.
  set (l := ScoreState.recentThisOver s) in *.
  set (i := Z.to_nat (k - 1)) in *.
  set (s1 := recordDelivery d1 (Some k) s) in *.
  pose proof (proj2 (isEdit_true_iff k l) Hk) as He.
  destruct (isEdit_lookup (Some k) l He) as [A HA]. simpl in HA. fold i in HA.
  assert (Hl1 : ScoreState.recentThisOver s1 = <[i := newBallEvent d1]> l).
  { subst s1. rewrite recordDelivery_recentThisOver by assumption.
    fold l. unfold updateRecentThisOver. rewrite He. simpl. fold i.
    apply Z.leb_gt in H6. by rewrite H6. }
  assert (He1 : isEdit (Some k) (ScoreState.recentThisOver s1) = true).
  { apply isEdit_true_iff. rewrite Hl1, length_insert. exact Hk. }
  assert (HA1 : ScoreState.recentThisOver s1 !! i = Some (newBallEvent d1)).
  { rewrite Hl1. apply list_lookup_insert_eq. subst i. lia. }
  pose proof (recordDelivery_limits d1 (Some k) s Hlive) as [Hm1 Ht1].
  apply recordDelivery_ext; try assumption.
  - subst s1. rewrite recordDelivery_overs by assumption.
    fold l. unfold updateRecentThisOver at 1. rewrite He. simpl. fold i.
    apply Z.leb_gt in H6. by rewrite H6.
  - unfold updateRecentThisOver. rewrite He1. fold l. rewrite He. simpl. fold i.
    rewrite Hl1. apply list_insert_insert_eq.
  - rewrite (recordDelivery_edit_runs d2 (Some k) s1 Hlive1 _ He1 HA1).
    rewrite (recordDelivery_edit_runs d2 (Some k) s Hlive A He HA).
    subst s1. rewrite (recordDelivery_edit_runs d1 (Some k) s Hlive A He HA). lia.
  - rewrite (recordDelivery_edit_wickets d2 (Some k) s1 Hlive1 _ He1 HA1).
    rewrite (recordDelivery_edit_wickets d2 (Some k) s Hlive A He HA).
    subst s1. rewrite (recordDelivery_edit_wickets d1 (Some k) s Hlive A He HA). lia.
Qed.

Lemma edit_last_write_wins_witness :
  recordDelivery (addRuns 2) (Some 2)
    (recordDelivery (declareWicket (Some 1)) (Some 2) fourAndWide)
  = recordDelivery (addRuns 2) (Some 2) fourAndWide.
Proof.
  apply (edit_last_write_wins (declareWicket (Some 1)) (addRuns 2) 2 fourAndWide);
    [reflexivity | split; vm_compute; discriminate | reflexivity | reflexivity].
Defined.

(** Correcting the ball just dictated is the same as having dictated it
    right: if a call without a valid ball number is appended without
    completing the over or ending the innings, then editing that last ball
    gives the very state that appending the corrected call would have
    given. *)
Theorem edit_of_the_ball_just_appended (d1 d2 : Delivery) (bn : option Z) (s : ScoreState) :
  ScoreState.inningsOver s = false ->
  isEdit bn (ScoreState.recentThisOver s) = false ->
  legalCount (ScoreState.recentThisOver s ++ [newBallEvent d1]) < 6 ->
  ScoreState.inningsOver (recordDelivery d1 bn s) = false ->
  recordDelivery d2 (Some (Z.of_nat (length (ScoreState.recentThisOver s)) + 1))
    (recordDelivery d1 bn s)
  = recordDelivery d2 None s.
Proof.
  intros Hlive He H6 Hlive1.
  set (l := ScoreState.recentThisOver s) in *.
  set (k := Z.of_nat (length l) + 1).
  assert (Hs1 := recordDelivery_append_state d1 bn s Hlive He H6). fold l in Hs1.
  set (s1 := recordDelivery d1 bn s) in *.
  assert (Hl1 : ScoreState.recentThisOver s1 = l ++ [newBallEvent d1])
    by (rewrite Hs1; reflexivity).
  assert (He1 : isEdit (Some k) (ScoreState.recentThisOver s1) = true).
  { apply isEdit_true_iff. rewrite Hl1, length_app. simpl. lia. }
  assert (Hi : Z.to_nat (k - 1) = length l) by lia.
  assert (HA1 : ScoreState.recentThisOver s1 !! Z.to_nat (k - 1) = Some (newBallEvent d1)).
  { rewrite Hl1, Hi. by rewrite list_lookup_middle. }
  assert (Hc : (legalCount l <? 6) = true).
  { apply Z.ltb_lt. rewrite legalCount_snoc in H6.
    destruct (BallEvent.isLegalDelivery (newBallEvent d1)); simpl in H6; lia. }
  apply recordDelivery_ext; try assumption.
  - rewrite Hs1. reflexivity.
  - rewrite Hs1. reflexivity.
  - rewrite Hs1. reflexivity.
  - unfold updateRecentThisOver. rewrite He1. fold l. simpl. rewrite Hc.
    rewrite Hl1, Hi.
    replace (length l) with (length l + 0)%nat at 1 by lia.
    by rewrite insert_app_r.
  - rewrite (recordDelivery_edit_runs d2 (Some k) s1 Hlive1 _ He1 HA1).
    rewrite (recordDelivery_append_runs d2 None s Hlive eq_refl).
    rewrite Hs1. simpl. lia.
  - rewrite (recordDelivery_edit_wickets d2 (Some k) s1 Hlive1 _ He1 HA1).
    rewrite (recordDelivery_append_wickets d2 None s Hlive eq_refl).
    rewrite Hs1. simpl.
    destruct (BallEvent.isWicket (newBallEvent d1)); simpl; lia.
Qed.

Lemma edit_of_the_ball_just_appended_witness :
  recordDelivery (addRuns 6) (Some 3) (recordDelivery (declareExtra wide 4) None fourAndWicket)
  = recordDelivery (addRuns 6) None fourAndWicket.
Proof.
  apply (edit_of_the_ball_just_appended (declareExtra wide 4) (addRuns 6) None fourAndWicket);
    reflexivity.
Defined.

(** ** Clearing *)

(** The undo buffer is the current over only: right after a call has
    completed an over, [clearLastBall] changes nothing; the completed
    over's runs and wickets stay in the totals. *)
Theorem clear_cannot_undo_a_completed_over (d : Delivery) (bn : option Z) (s : ScoreState) :
  ScoreState.inningsOver s = false ->
  6 <= legalCount (updateRecentThisOver bn (newBallEvent d) (ScoreState.recentThisOver s)) ->
  clearLastDelivery (recordDelivery d bn s) = recordDelivery d bn s.
Proof.
  intros Hlive H6%Z.leb_le. apply clearLastDelivery_empty.
  rewrite recordDelivery_recentThisOver by assumption. by rewrite H6.
Qed.

Lemma clear_cannot_undo_a_completed_over_witness :
  clearLastDelivery (recordDelivery (addRuns 1) None fiveSingles) = sixSingles
  /\ ScoreState.runs sixSingles = 6.
Proof.
  split; [|reflexivity].
  rewrite (clear_cannot_undo_a_completed_over (addRuns 1) None fiveSingles);
    [reflexivity | reflexivity | vm_compute; discriminate].
Defined.

Lemma runCalls_cons (c : FunctionCall) (cs : list FunctionCall) (s : ScoreState) :
  runCalls (c :: cs) s = runCalls cs (handleGeminiFunctionCall c s).
Proof. reflexivity. Qed.

Lemma clear_whole_over_aux (l : list BallEvent) :
  forall s : ScoreState,
    ScoreState.inningsOver s = false ->
    ScoreState.recentThisOver s = l ->
    let s' := runCalls (replicate (length l) clearLastBall) s in
    ScoreState.recentThisOver s' = []
    /\ ScoreState.runs s' = bankedRuns s
    /\ ScoreState.wickets s' = bankedWickets s
    /\ ScoreState.overs s' = ScoreState.overs s
    /\ ScoreState.inningsOver s' = false.
Proof.
  induction l as [|b l IH] using rev_ind; intros s Hlive Hl s'.
  - subst s'. simpl. unfold bankedRuns, bankedWickets. rewrite Hl.
    unfold runsIn, wicketsIn. simpl. split_and!; auto; lia.
  - subst s'. rewrite length_app. simpl.
    replace (length l + 1)%nat with (S (length l)) by lia.
    simpl replicate. rewrite runCalls_cons. simpl handleGeminiFunctionCall.
    rewrite (clearLastDelivery_snoc s l b Hlive Hl).
    match goal with |- context [runCalls _ ?s1] => set (s1' := s1) end.
    destruct (IH s1' eq_refl eq_refl) as (Hrec & Hr & Hw & Ho & Hf).
    rewrite Hrec, Hr, Hw, Ho, Hf.
    unfold bankedRuns, bankedWickets. subst s1'. simpl. rewrite Hl.
    rewrite runsIn_snoc, wicketsIn_snoc.
    destruct (BallEvent.isWicket b); simpl; split_and!; auto; lia.
Qed.

(** Clearing as many times as the current over has deliveries empties it
    and takes exactly its runs and wickets out of the totals, leaving those
    of the completed overs; the overs are untouched, and one more
    [clearLastBall] changes nothing. *)
Theorem clearing_the_whole_over (s : ScoreState) :
  ScoreState.inningsOver s = false ->
  let s' := runCalls (replicate (length (ScoreState.recentThisOver s)) clearLastBall) s in
  ScoreState.recentThisOver s' = []
  /\ ScoreState.runs s' = ScoreState.runs s - runsIn (ScoreState.recentThisOver s)
  /\ ScoreState.wickets s' = ScoreState.wickets s - wicketsIn (ScoreState.recentThisOver s)
  /\ ScoreState.overs s' = ScoreState.overs s
  /\ clearLastDelivery s' = s'.
Proof.
  intros Hlive s'.
  destruct (clear_whole_over_aux (ScoreState.recentThisOver s) s Hlive eq_refl)
    as (Hrec & Hr & Hw & Ho & _).
  fold s' in Hrec, Hr, Hw, Ho.
  split_and!; auto. by apply clearLastDelivery_empty.
Qed.

Lemma clearing_the_whole_over_witness :
  ScoreState.recentThisOver (runCalls (replicate 4 clearLastBall) scenarioSession) = []
  /\ ScoreState.runs (runCalls (replicate 4 clearLastBall) scenarioSession) = 0
  /\ ScoreState.wickets (runCalls (replicate 4 clearLastBall) scenarioSession) = 0.
Proof.
  destruct (clearing_the_whole_over scenarioSession) as (Hrec & Hr & Hw & _);
    [reflexivity|].
  split; [exact Hrec|]. split; [exact Hr | exact Hw].
Defined.

(** ** What function calls never do *)

Lemma handle_limits (fc : FunctionCall) (s : ScoreState) :
  ScoreState.maxWickets (handleGeminiFunctionCall fc s) = ScoreState.maxWickets s
  /\ ScoreState.targetOvers (handleGeminiFunctionCall fc s) = ScoreState.targetOvers s.
Proof.
  destruct (ScoreState.inningsOver s) eqn:Hlive.
  { destruct fc as [|d bn]; simpl;
      [rewrite clearLastDelivery_terminal | rewrite recordDelivery_terminal]; auto. }
  destruct fc as [|d bn]; simpl.
  - destruct (recent_cases s) as [Hl | (l & b & Hl)].
    + rewrite clearLastDelivery_empty; auto.
    + rewrite (clearLastDelivery_snoc s l b Hlive Hl). auto.
  - apply recordDelivery_limits, Hlive.
Qed.

(** Function calls, whatever they are and in whatever state, never change
    the wickets limit or the overs limit and never take an over back: the
    overs only grow, by at most one per call. *)
Theorem calls_keep_limits_and_overs (calls : list FunctionCall) (s : ScoreState) :
  ScoreState.maxWickets (runCalls calls s) = ScoreState.maxWickets s
  /\ ScoreState.targetOvers (runCalls calls s) = ScoreState.targetOvers s
  /\ ScoreState.overs s <= ScoreState.overs (runCalls calls s)
     <= ScoreState.overs s + Z.of_nat (length calls).
Proof.
  induction calls as [|c calls IH] using rev_ind.
  - simpl. lia.
  - rewrite runCalls_snoc, length_app. simpl.
    destruct IH as (Hm & Ht & Ho).
    destruct (handle_limits c (runCalls calls s)) as [Hm' Ht'].
    rewrite Hm', Ht'.
    destruct (handle_over_or_banked c (runCalls calls s))
      as [(Ho' & _) | (Ho' & _)]; rewrite Ho'; lia.
Qed.

(** ** New innings and the wickets limit *)

(** Once the innings is over, [New Innings] followed by a valid wickets
    limit [n] gives a fresh innings with that limit, whatever the finished
    score and the previous limit were; while the innings is open the button
    is absent and the score stays. *)
Theorem new_innings_then_new_limit (n : Z) (s : ScoreState) :
  1 <= n ->
  (ScoreState.inningsOver s = true ->
   runApp [newInningsClicked; maxWicketsChanged (Some n)] s
   = {| ScoreState.runs := 0;
        ScoreState.wickets := 0;
        ScoreState.overs := 0;
        ScoreState.balls := 0;
        ScoreState.recentThisOver := [];
        ScoreState.inningsOver := false;
        ScoreState.targetOvers := 20;
        ScoreState.maxWickets := n |})
  /\ (ScoreState.inningsOver s = false -> runApp [newInningsClicked] s = s).
Proof.
  intros Hn. split; intros Hs; unfold runApp; simpl; unfold newInningsButton;
    rewrite Hs; [|reflexivity].
  unfold maxWicketsInput. simpl.
  destruct (Z.ltb_spec 0 n); [reflexivity | lia].
Qed.

Lemma new_innings_then_new_limit_witness :
  ScoreState.maxWickets (runApp [newInningsClicked; maxWicketsChanged (Some 3)] allOut) = 3
  /\ runApp [newInningsClicked] fourAndWide = fourAndWide.
Proof.
  destruct (new_innings_then_new_limit 3 allOut) as [H _]; [lia|].
  destruct (new_innings_then_new_limit 3 fourAndWide) as [_ H']; [lia|].
  split; [rewrite H; reflexivity | apply H'; reflexivity].
Defined.

Lemma isEdit_nil (bn : option Z) : isEdit bn [] = false.
Proof.
  destruct bn as [n|]; [|reflexivity].
  apply isEdit_false_iff. simpl. lia.
Qed.

(** The first delivery of an innings locks the wickets limit: in a fresh
    innings (the initial state, or the state after [New Innings]), one call
    of a declared delivery function with non-negative runs, with or without
    ball number, makes the game count as started, after which a change of
    the [max-wickets] input is ignored. *)
Theorem first_delivery_locks_the_wickets_limit
    (d : Delivery) (bn v : option Z) (s : ScoreState) :
  isDeclared d = true ->
  validDelivery d ->
  let s1 := recordDelivery d bn (resetInnings s) in
  isGameStarted s1 = true /\ maxWicketsInput v s1 = s1.
Proof.
  intros Hdecl Hvalid s1.
  assert (Hstarted : isGameStarted s1 = true).
  { subst s1. unfold isGameStarted.
    rewrite recordDelivery_append_runs, recordDelivery_append_wickets,
      recordDelivery_balls by (reflexivity || apply isEdit_nil).
    simpl ScoreState.recentThisOver. unfold updateRecentThisOver.
    rewrite isEdit_nil. simpl.
    destruct d as [r|[r|]|kind r|]; simpl in *; try discriminate;
      unfold legalCount; simpl; rewrite ?orb_true_r; try reflexivity.
    assert ((0 <? 0 + (1 + r)) = true) as -> by (apply Z.ltb_lt; lia).
    reflexivity. }
  split; [exact Hstarted|].
  unfold maxWicketsInput. by rewrite Hstarted.
Qed.

Lemma first_delivery_locks_the_wickets_limit_witness :
  maxWicketsInput (Some 3) (recordDelivery (addRuns 0) None (resetInnings allOut))
  = recordDelivery (addRuns 0) None (resetInnings allOut).
Proof.
  apply (first_delivery_locks_the_wickets_limit (addRuns 0) None (Some 3) allOut);
    [reflexivity | simpl; lia].
Defined.

(** A call of an undeclared function in a fresh innings records a blank
    delivery and leaves the game unstarted. *)
Example unknown_call_records_a_blank_ball :
  ScoreState.recentThisOver (recordDelivery unknownCall None INITIAL_SCORE_STATE)
  = [newBallEvent unknownCall]
  /\ isGameStarted (recordDelivery unknownCall None INITIAL_SCORE_STATE) = false.
Proof. split; reflexivity. Qed.

(** ** Labels *)

Lemma runs_0_to_6 (r : Z) :
  0 <= r <= 6 -> r = 0 \/ r = 1 \/ r = 2 \/ r = 3 \/ r = 4 \/ r = 5 \/ r = 6.
Proof. lia. Qed.

(** For calls with runs between 0 and 6, the label shown for a delivery
    determines the whole event: two calls whose events are displayed alike
    have recorded the same runs, wicket, legality and kind of extra. *)
Theorem display_determines_the_event (d1 d2 : Delivery) :
  validDelivery d1 -> validDelivery d2 ->
  BallEvent.display (newBallEvent d1) = BallEvent.display (newBallEvent d2) ->
  newBallEvent d1 = newBallEvent d2.
Proof.
  intros H1 H2.
  destruct d1 as [r1|[r1|]|k1 r1|], d2 as [r2|[r2|]|k2 r2|];
    simpl validDelivery in H1, H2;
    repeat match goal with
    | H : 0 <= ?r <= 6 |- _ =>
        apply runs_0_to_6 in H;
        destruct H as [->|[->|[->|[->|[->|[->| ->]]]]]]
    end;
    try destruct k1; try destruct k2;
    intros H; vm_compute in H; try discriminate H; reflexivity.
Qed.

Lemma display_determines_the_event_witness :
  newBallEvent (declareWicket None) = newBallEvent (declareWicket (Some 0)).
Proof.
  apply (display_determines_the_event (declareWicket None) (declareWicket (Some 0)));
    [exact I | simpl; lia | reflexivity].
Defined.

(** ** Six legal deliveries make an over *)

(** In an open innings whose ball count agrees with its current over, an
    extra dictated without a valid ball number is always appended and never
    advances the over: overs and ball count stay, the wickets stay, and the
    runs grow by the penalty run plus the runs of the extra. *)
Theorem extra_never_advances_the_over
    (kind : ExtraType) (r : Z) (bn : option Z) (s : ScoreState) :
  ScoreState.inningsOver s = false ->
  overConsistent s ->
  isEdit bn (ScoreState.recentThisOver s) = false ->
  let s' := recordDelivery (declareExtra kind r) bn s in
  ScoreState.recentThisOver s'
  = ScoreState.recentThisOver s ++ [newBallEvent (declareExtra kind r)]
  /\ ScoreState.overs s' = ScoreState.overs s
  /\ ScoreState.balls s' = ScoreState.balls s
  /\ ScoreState.wickets s' = ScoreState.wickets s
  /\ ScoreState.runs s' = ScoreState.runs s + 1 + r.
Proof.
  intros Hlive [Hb H5] He s'.
  assert (H6 : legalCount (ScoreState.recentThisOver s
                           ++ [newBallEvent (declareExtra kind r)]) < 6).
  { rewrite legalCount_snoc. simpl. lia. }
  subst s'. rewrite recordDelivery_append_state by assumption. simpl.
  rewrite legalCount_snoc. simpl. split_and!; auto; lia.
Qed.

Lemma extra_never_advances_the_over_witness :
  ScoreState.overs (recordDelivery (declareExtra no_ball 2) None fiveSingles) = 0
  /\ ScoreState.balls (recordDelivery (declareExtra no_ball 2) None fiveSingles) = 5
  /\ ScoreState.runs (recordDelivery (declareExtra no_ball 2) None fiveSingles) = 5 + 1 + 2.
Proof.
  destruct (extra_never_advances_the_over no_ball 2 None fiveSingles)
    as (_ & Ho & Hb & _ & Hr);
    [reflexivity | split; [reflexivity | vm_compute; discriminate] | reflexivity |].
  split; [exact Ho|]. split; [exact Hb | exact Hr].
Defined.

(** In an open innings whose ball count agrees with its current over, a
    legal delivery ([addRuns] or [declareWicket]) dictated without a valid
    ball number advances the ball count by one and is appended, unless it
    is the sixth legal delivery: then the over is complete, the overs grow
    by one and the current over and the ball count start afresh. *)
Theorem legal_delivery_advances_the_over (d : Delivery) (bn : option Z) (s : ScoreState) :
  ScoreState.inningsOver s = false ->
  overConsistent s ->
  isEdit bn (ScoreState.recentThisOver s) = false ->
  BallEvent.isLegalDelivery (newBallEvent d) = true ->
  let s' := recordDelivery d bn s in
  (ScoreState.balls s < 5
   /\ ScoreState.balls s' = ScoreState.balls s + 1
   /\ ScoreState.overs s' = ScoreState.overs s
   /\ ScoreState.recentThisOver s' = ScoreState.recentThisOver s ++ [newBallEvent d])
  \/ (ScoreState.balls s = 5
      /\ ScoreState.balls s' = 0
      /\ ScoreState.overs s' = ScoreState.overs s + 1
      /\ ScoreState.recentThisOver s' = []).
Proof.
  intros Hlive [Hb H5] He Hlegal s'. subst s'.
  pose proof (legalCount_nonneg (ScoreState.recentThisOver s)) as H0.
  assert (Hupd : updateRecentThisOver bn (newBallEvent d) (ScoreState.recentThisOver s)
                 = ScoreState.recentThisOver s ++ [newBallEvent d]).
  { unfold updateRecentThisOver. rewrite He.
    destruct (Z.ltb_spec (legalCount (ScoreState.recentThisOver s)) 6); [done | lia]. }
  rewrite recordDelivery_balls, recordDelivery_overs,
    recordDelivery_recentThisOver by assumption.
  rewrite Hupd, legalCount_snoc, Hlegal. simpl.
  destruct (Z.leb_spec 6 (legalCount (ScoreState.recentThisOver s) + 1));
    [right | left]; split_and!; auto; lia.
Qed.

Lemma legal_delivery_advances_the_over_witness :
  ScoreState.balls (recordDelivery (addRuns 2) None fourAndWide) = 2
  /\ ScoreState.overs (recordDelivery (declareWicket None) None fiveSingles) = 1.
Proof.
  destruct (legal_delivery_advances_the_over (addRuns 2) None fourAndWide)
    as [(_ & Hb & _) | (Hb & _)];
    [reflexivity | split; [reflexivity | vm_compute; discriminate]
     | reflexivity | reflexivity | | vm_compute in Hb; discriminate].
  destruct (legal_delivery_advances_the_over (declareWicket None) None fiveSingles)
    as [(Hlt & _) | (_ & _ & Ho & _)];
    [reflexivity | split; [reflexivity | vm_compute; discriminate]
     | reflexivity | reflexivity | vm_compute in Hlt; discriminate |].
  split; [rewrite Hb; reflexivity | rewrite Ho; reflexivity].
Defined.
